(** * face-vid: frame extraction pipeline (extract_frames.py)

    A shallow embedding of the face-region tracker, the crop-and-mask
    transformer, the flow rescaling and the output sampler of
    [extract_frames.py], with the properties of the design document
    stated and settled against it.

    Conventions.
    - Python 2 semantics: [/] on integers is floor division ([Z.div]),
      [max] keeps the first maximal element, [sys.exit()] without an
      argument raises [SystemExit(None)].
    - Pixel coordinates are the detector's integers, modelled as [Z];
      8-bit pixels are [Z] values with the wrap-around written out.
    - Python floats are the kernel's binary64 floats, with the script's
      own operations ([/], [*], [int], the ceiling inside [np.arange]).
    - The flow field is single precision: its arithmetic is that of
      [SpecFloat] at 24 bits, and [cvRound] returns a 32-bit integer.
    - The OpenCV and NumPy primitives the script calls are modelled from
      their documented behaviour, or taken as section variables when only
      their existence matters (detector, flow solver, ellipse rasteriser). *)

From Stdlib Require Import String ZArith List Bool Lia QArith Qround Qabs Lqa.
From Stdlib Require Import Uint63 PrimFloat SpecFloat FloatOps Sorted.
Import ListNotations.
Open Scope Z_scope.

(** ** Python outcomes *)

(** The exceptions the script can raise. *)
Inductive PyExn : Type :=
| SystemExit (arg : option string)   (* sys.exit() / sys.exit("message") *)
| ValueError                         (* max([]) , int("x") *)
| IndexError                         (* framesGray[0] on an empty list *)
| ZeroDivisionError.                 (* a zero step inside np.arange *)

Inductive Py (A : Type) : Type :=
| Ret (a : A)
| Raise (e : PyExn).
Arguments Ret {A} a.
Arguments Raise {A} e.

Definition bind {A B : Type} (m : Py A) (k : A -> Py B) : Py B :=
  match m with
  | Ret a => k a
  | Raise e => Raise e
  end.

Notation "x <- m ;; k" := (bind m (fun x => k))
  (at level 61, m at next level, right associativity).

(** ** Numbers *)

(** The indices [0 .. n-1]: [enumerate], [np.arange(0, n, 1)]. *)
Definition indices (n : Z) : list Z := map Z.of_nat (seq 0 (Z.to_nat n)).

(** [float(z)] and the conversion of an integer operand of a float
    operation, for [|z| < 2^63]. *)
Definition float_of_Z (z : Z) : float :=
  if z <? 0
  then PrimFloat.opp (PrimFloat.of_uint63 (Uint63.of_Z (- z)))
  else PrimFloat.of_uint63 (Uint63.of_Z z).

(** [int(v)] on a finite float: truncation towards zero.  (On an
    infinity or a NaN [int] raises; the script's products of pixel sizes
    and frame counts are finite.) *)
Definition py_int (v : float) : Z :=
  match Prim2SF v with
  | S754_finite s m e =>
      let magnitude :=
        if 0 <=? e then Zpos m * 2 ^ e else Zpos m / 2 ^ (- e) in
      if s then - magnitude else magnitude
  | _ => 0
  end.

(** [ceil(v)] on a finite float, as an integer. *)
Definition float_ceil (v : float) : Z :=
  match Prim2SF v with
  | S754_finite s m e =>
      if 0 <=? e
      then (if s then - (Zpos m * 2 ^ e) else Zpos m * 2 ^ e)
      else (if s then - (Zpos m / 2 ^ (- e)) else - (- Zpos m / 2 ^ (- e)))
  | _ => 0
  end.

(** ** Frames *)

Definition Frame (P : Type) : Type := list (list P).
Definition GrayFrame : Type := Frame Z.
Definition BGRFrame : Type := Frame (Z * Z * Z).

(** ** Region consensus tracker (face_pass, first half) *)

(** A row of [detectMultiScale]: [(x, y, w, h)]. *)
Definition Rect : Type := (Z * Z * Z * Z)%type.

(** The dictionaries of [known_faces] all carry the same five keys. *)
Record Cluster : Type := mkCluster {
  minX : Z;
  minY : Z;
  maxWidth : Z;
  maxHeight : Z;
  count : Z
}.

Record Point : Type := mkPoint { pt_x : Z; pt_y : Z }.

Definition point_in_rect (point : Point) (rect : Cluster) : bool :=
  (minX rect <? pt_x point) && (pt_x point <? minX rect + maxWidth rect) &&
  (minY rect <? pt_y point) && (pt_y point <? minY rect + maxHeight rect).

Definition center_point (face : Rect) : Point :=
  let '(x, y, w, h) := face in
  {| pt_x := x + w / 2; pt_y := y + h / 2 |}.

(** The cluster built in the matching branch of [remember_face]. *)
Definition merge_face (head : Cluster) (face : Rect) : Cluster :=
  let '(x, y, w, h) := face in
  {| minX := Z.min (minX head) x;
     minY := Z.min (minY head) y;
     maxWidth := Z.max (maxWidth head) w;
     maxHeight := Z.max (maxHeight head) h;
     count := count head + 1 |}.

(** The cluster built in the empty-list branch of [remember_face]. *)
Definition new_face (face : Rect) : Cluster :=
  let '(x, y, w, h) := face in
  {| minX := x; minY := y; maxWidth := w; maxHeight := h; count := 0 |}.

Fixpoint remember_face (face : Rect) (known_faces : list Cluster)
  {struct known_faces} : list Cluster :=
  match known_faces with
  | [] => [new_face face]
  | head :: tail =>
      if point_in_rect (center_point face) head
      then merge_face head face :: tail
      else head :: remember_face face tail
  end.

Section Tracker.
(** [faceCascade.detectMultiScale], the external detector. *)
Variable detectMultiScale : GrayFrame -> list Rect.

Definition detect_face (image : GrayFrame) : Py (list Rect) :=
  let faces := detectMultiScale image in
  if (length faces =? 0)%nat then Raise (SystemExit None) else Ret faces.

(** The inner [for face in detect_face(frame)] loop. *)
Definition remember_faces (faces : list Rect) (known_faces : list Cluster)
  : list Cluster :=
  fold_left (fun known face => remember_face face known) faces known_faces.

(** The outer [for i, frame in enumerate(framesGray)] loop, from index [i]. *)
Fixpoint detection_loop (i : Z) (frames : list GrayFrame)
  (known_faces : list Cluster) : Py (list Cluster) :=
  match frames with
  | [] => Ret known_faces
  | frame :: rest =>
      if negb (i mod 10 =? 0)
      then detection_loop (i + 1) rest known_faces
      else
        faces <- detect_face frame ;;
        detection_loop (i + 1) rest (remember_faces faces known_faces)
  end.

Definition known_faces_of (framesGray : list GrayFrame) : Py (list Cluster) :=
  detection_loop 0 framesGray [].
End Tracker.

(** [max(seq, key=...)]: the first element with the greatest key;
    [ValueError] on an empty sequence. *)
Fixpoint max_from {A : Type} (key : A -> Z) (best : A) (l : list A) : A :=
  match l with
  | [] => best
  | a :: rest => max_from key (if key a >? key best then a else best) rest
  end.

Definition py_max {A : Type} (key : A -> Z) (l : list A) : Py A :=
  match l with
  | [] => Raise ValueError
  | a :: rest => Ret (max_from key a rest)
  end.

(** The canonical region: [most_significant_face] of [face_pass]. *)
Definition most_significant_face
  (detectMultiScale : GrayFrame -> list Rect) (framesGray : list GrayFrame)
  : Py Cluster :=
  known_faces <- known_faces_of detectMultiScale framesGray ;;
  py_max count known_faces.

(** ** Crop-and-mask transformer (crop_and_mask) *)

(** Pixels of either stream: a gray value or a (B, G, R) triple.
    [pixel_white] is the colour [(255, 255, 255)] restricted to the
    channels of the image, as [cv2.ellipse] does. *)
Class Pixel (P : Type) : Type := {
  pixel_zero : P;
  pixel_white : P;
  pixel_and : P -> P -> P
}.

#[export] Instance gray_pixel : Pixel Z :=
  {| pixel_zero := 0; pixel_white := 255; pixel_and := Z.land |}.

#[export] Instance bgr_pixel : Pixel (Z * Z * Z) :=
  {| pixel_zero := (0, 0, 0);
     pixel_white := (255, 255, 255);
     pixel_and := fun p q =>
       let '(b1, g1, r1) := p in
       let '(b2, g2, r2) := q in
       (Z.land b1 b2, Z.land g1 g2, Z.land r1 r2) |}.

(** A slice bound [i] of a sequence of length [len]: a negative bound
    counts from the end, and every bound is clamped to [0 .. len]. *)
Definition slice_bound (i len : Z) : Z :=
  if i <? 0 then Z.max 0 (i + len) else Z.min i len.

(** [l[lo:hi]] *)
Definition py_slice {A : Type} (lo hi : Z) (l : list A) : list A :=
  let len := Z.of_nat (length l) in
  let a := slice_bound lo len in
  let b := slice_bound hi len in
  firstn (Z.to_nat (b - a)) (skipn (Z.to_nat a) l).

(** [frame[y0:y1, x0:x1]] *)
Definition crop {P : Type} (frame : Frame P) (y0 y1 x0 x1 : Z) : Frame P :=
  map (py_slice x0 x1) (py_slice y0 y1 frame).

Definition frame_height {P : Type} (frame : Frame P) : Z :=
  Z.of_nat (length frame).

(** The common row length of a frame (0 for a frame without rows). *)
Definition frame_width {P : Type} (frame : Frame P) : Z :=
  match frame with
  | [] => 0
  | row :: _ => Z.of_nat (length row)
  end.

(** [int(v * 0.5)] and [int(v * 0.4)] on an integer [v]; the second
    factor is the double nearest to 0.4. *)
Definition int_times_half (v : Z) : Z :=
  py_int (float_of_Z v * 0.5)%float.
Definition int_times_0_4 (v : Z) : Z :=
  py_int (float_of_Z v * 0x1.999999999999ap-2)%float.

(** [enumerate]-style maps carrying the running index. *)
Fixpoint map_indexed {A B : Type} (f : Z -> A -> B) (i : Z) (l : list A)
  : list B :=
  match l with
  | [] => []
  | a :: rest => f i a :: map_indexed f (i + 1) rest
  end.

Fixpoint zip_with {A B C : Type} (f : A -> B -> C) (l : list A) (m : list B)
  : list C :=
  match l, m with
  | a :: l', b :: m' => f a b :: zip_with f l' m'
  | _, _ => []
  end.

(** [np.zeros_like(frame)] *)
Definition zeros_like {P : Type} `{Pixel P} (frame : Frame P) : Frame P :=
  map (map (fun _ => pixel_zero)) frame.

(** [np.bitwise_and(a, b)] on two images of the same shape. *)
Definition bitwise_and {P : Type} `{Pixel P} (a b : Frame P) : Frame P :=
  zip_with (zip_with pixel_and) a b.

Section CropAndMask.
(** [ellipse_covers center axes x y]: the filled, unrotated, full
    ellipse that [cv2.ellipse(img, center, axes, 0, 0, 360, color, -1)]
    draws covers the pixel in column [x] and row [y].  The rasteriser
    is OpenCV's; only the pixels inside the image are painted. *)
Variable ellipse_covers : Z * Z -> Z * Z -> Z -> Z -> bool.

Context {P : Type} `{Pixel P}.

(** [cv2.ellipse(mask, center, axes, 0, 0, 360, (255, 255, 255), -1)] *)
Definition ellipse (img : Frame P) (center axes : Z * Z) : Frame P :=
  map_indexed (fun y row =>
    map_indexed (fun x p =>
      if ellipse_covers center axes x y then pixel_white else p) 0 row)
    0 img.

(** Lines 85-91 of [crop_and_mask]: the mask is built for the shape of
    the cropped frame and the region's [maxWidth], [maxHeight]. *)
Definition apply_mask (cropped_frame : Frame P) (maxWidth maxHeight : Z)
  : Frame P :=
  let center := (int_times_half maxWidth, int_times_half maxHeight) in
  let axes := (int_times_0_4 maxWidth, int_times_half maxHeight) in
  let mask := ellipse (zeros_like cropped_frame) center axes in
  bitwise_and cropped_frame mask.

Definition crop_and_mask (frame : Frame P) (region : Cluster) : Frame P :=
  let cropped_frame :=
    crop frame (minY region) (minY region + maxHeight region)
               (minX region) (minX region + maxWidth region) in
  apply_mask cropped_frame (maxWidth region) (maxHeight region).
End CropAndMask.

(** [face_pass]: track, pick the canonical region, transform both streams. *)
Definition face_pass
  (detectMultiScale : GrayFrame -> list Rect)
  (ellipse_covers : Z * Z -> Z * Z -> Z -> Z -> bool)
  (framesGray : list GrayFrame) (framesBGR : list BGRFrame)
  : Py (list GrayFrame * list BGRFrame) :=
  region <- most_significant_face detectMultiScale framesGray ;;
  Ret (map (fun f => crop_and_mask ellipse_covers f region) framesGray,
       map (fun f => crop_and_mask ellipse_covers f region) framesBGR).

(** ** Flow deriver (calculateFlow, flow_pass_static, flow_pass_continuous) *)

Definition SCALE_FLOW : Z := 10.

(** [cvRound]: round to the nearest integer, halves to the even one. *)
Definition cvRound (q : Q) : Z :=
  let f := Qfloor q in
  match (q - inject_Z f ?= 1 # 2)%Q with
  | Lt => f
  | Gt => f + 1
  | Eq => if Z.even f then f else f + 1
  end.

(** [saturate_cast<uchar>] on an integer. *)
Definition saturate_uchar (v : Z) : Z :=
  if v <? 0 then 0 else if 255 <? v then 255 else v.

(** Single-precision floats, the element type of the flow field: the
    IEEE 754 operations of 24-bit precision on [spec_float]. *)
Definition float32 : Type := spec_float.

Definition f32_mul (x y : float32) : float32 := SFmul 24 128 x y.
Definition f32_add (x y : float32) : float32 := SFadd 24 128 x y.

(** The single-precision float nearest to [m * 2^e]; an integer is
    [f32_of_dyadic z 0]. *)
Definition f32_of_dyadic (m e : Z) : float32 :=
  binary_normalize 24 128 m e false.
Definition f32_of_Z (z : Z) : float32 := f32_of_dyadic z 0.

Definition pow2 (e : Z) : Q :=
  if 0 <=? e then inject_Z (2 ^ e) else (/ inject_Z (2 ^ (- e)))%Q.

(** The value of a finite float. *)
Definition f32_value (v : float32) : option Q :=
  match v with
  | S754_zero _ => Some 0%Q
  | S754_finite s m e =>
      Some ((if s then - (1) else 1) * inject_Z (Zpos m) * pow2 e)%Q
  | S754_infinity _ => None
  | S754_nan => None
  end.

(** The [int] that [cvRound] returns for a float: the value rounded
    half to even when that fits 32 bits, and the smallest 32-bit integer
    when it does not or when the float is not finite. *)
Definition INT_MIN : Z := - 2 ^ 31.

Definition int_or_indefinite (r : Z) : Z :=
  if (INT_MIN <=? r) && (r <? 2 ^ 31) then r else INT_MIN.

Definition cvRound_f32 (v : float32) : Z :=
  match f32_value v with
  | Some q => int_or_indefinite (cvRound q)
  | None => INT_MIN
  end.

(** [src * alpha + beta] in single precision: the product is rounded,
    then the sum (no fused multiply-add). *)
Definition scale_shift (alpha beta src : float32) : float32 :=
  f32_add (f32_mul src alpha) beta.

(** One element of [cv2.convertScaleAbs(src, None, alpha, beta)] on a
    single-precision field:
    [saturate_cast<uchar>(|src * alpha + beta|)]. *)
Definition convertScaleAbs1 (alpha beta src : float32) : Z :=
  saturate_uchar (cvRound_f32 (SFabs (scale_shift alpha beta src))).

Definition convertScaleAbs (src : list (list float32)) (alpha beta : float32)
  : GrayFrame :=
  map (map (convertScaleAbs1 alpha beta)) src.

(** The scale argument [128 / SCALE_FLOW]: a quotient of two Python 2
    integers. *)
Definition flow_scale : Z := 128 / SCALE_FLOW.

(** The single-precision value of [raw * scale + 128], and the value
    stored for the raw displacement. *)
Definition flow_value (raw : float32) : float32 :=
  scale_shift (f32_of_Z flow_scale) (f32_of_Z 128) raw.

Definition flow_display (raw : float32) : Z :=
  convertScaleAbs1 (f32_of_Z flow_scale) (f32_of_Z 128) raw.

(** [a + b] on two [uint8] images of one shape. *)
Definition np_add (a b : GrayFrame) : GrayFrame :=
  zip_with (zip_with (fun p q => (p + q) mod 256)) a b.

(** [zip] over the unpacked [flows], then [list(t)]: the list of first components
    and the list of second components; nothing for no flows at all. *)
Definition unzip_flows {A : Type} (flows : list (A * A)) : list (list A) :=
  match flows with
  | [] => []
  | _ => [map fst flows; map snd flows]
  end.

Section Flow.
(** [cv2.calcOpticalFlowFarneback(frame1, frame2, 0.5, 3, 15, 3, 2, 1.1, 0)],
    the external solver: the field of x-displacements and the field of
    y-displacements ([flow[..., 0]] and [flow[..., 1]]). *)
Variable calcOpticalFlowFarneback :
  GrayFrame -> GrayFrame -> list (list float32) * list (list float32).

Definition calculateFlow (frame1 frame2 : GrayFrame) : GrayFrame * GrayFrame :=
  let flow := calcOpticalFlowFarneback frame1 frame2 in
  let horz := convertScaleAbs (fst flow) (f32_of_Z flow_scale) (f32_of_Z 128) in
  let vert := convertScaleAbs (snd flow) (f32_of_Z flow_scale) (f32_of_Z 128) in
  (horz, vert).

Definition flow_pass_static (framesGray : list GrayFrame)
  : Py (list (list GrayFrame)) :=
  match framesGray with
  | [] => Raise IndexError
  | first :: _ =>
      let flows := map (fun f => calculateFlow first f) framesGray in
      Ret (unzip_flows flows)
  end.

(** The frames paired by [zip(framesGray[0] + framesGray, framesGray)]:
    [framesGray[0]] is an array and [framesGray] a list of arrays of
    its shape, so [+] is NumPy's broadcast addition, frame by frame. *)
Definition continuous_pairs (framesGray : list GrayFrame)
  : Py (list (GrayFrame * GrayFrame)) :=
  match framesGray with
  | [] => Raise IndexError
  | first :: _ => Ret (combine (map (np_add first) framesGray) framesGray)
  end.

Definition flow_pass_continuous (framesGray : list GrayFrame)
  : Py (list (list GrayFrame)) :=
  pairs <- continuous_pairs framesGray ;;
  let flows := map (fun p => calculateFlow (fst p) (snd p)) pairs in
  Ret (unzip_flows flows).
End Flow.

(** ** Output sampler (save_to_disk) *)

(** [np.arange(0, stop, step)] for a float [step]: [ceil(stop / step)]
    values [0 + i * step], all computed in double precision; a zero step
    raises. *)
Definition np_arange (stop : Z) (step : float) : Py (list float) :=
  if PrimFloat.eqb step 0
  then Raise ZeroDivisionError
  else
    let len := float_ceil (float_of_Z stop / step)%float in
    Ret (map (fun i => (0 + float_of_Z i * step)%float) (indices len)).

(** [relevant_frames]: with a budget the stride is the float
    [frame_count / float(max_frame_count)], without one it is the
    integer 1 and [np.arange(0, frame_count, 1)] is [0 .. frame_count-1]. *)
Definition relevant_frames (frame_count max_frame_count : Z) : Py (list Z) :=
  if max_frame_count >? 0
  then
    let stride := (float_of_Z frame_count / float_of_Z max_frame_count)%float in
    values <- np_arange frame_count stride ;;
    Ret (map py_int values)
  else Ret (indices frame_count).

(** [i in relevant_frames] *)
Definition py_in (i : Z) (l : list Z) : bool := existsb (Z.eqb i) l.

(** The indices whose frame [save_to_disk] writes, in the order written. *)
Definition written_indices (frame_count max_frame_count : Z) : Py (list Z) :=
  relevant <- relevant_frames frame_count max_frame_count ;;
  Ret (filter (fun i => py_in i relevant) (indices frame_count)).

(** [save_to_disk]: the files written, as (stream name, index) for
    ["%s_%s.png" % (name, i)] under [output_path]. *)
Definition save_to_disk {F : Type} (frames : list F) (name : string)
  (max_frame_count : Z) : Py (list (string * Z)) :=
  written <- written_indices (Z.of_nat (length frames)) max_frame_count ;;
  Ret (map (fun i => (name, i)) written).

(** ** Command line (read_video, main) *)

(** What the script sees of its surroundings. *)
Record World : Type := mkWorld {
  argv : list string;
  (** [int(s)]; [None] stands for its [ValueError] *)
  int_of_string : string -> option Z;
  abspath : string -> string;
  isfile : string -> bool;
  isdir : string -> bool;
  (** the frames [cap.read()] delivers; [None] when [cap.isOpened()]
      is false *)
  VideoCapture : string -> option (list BGRFrame);
  (** gray conversion and histogram equalisation of one frame *)
  preprocessMMI : BGRFrame -> GrayFrame * BGRFrame;
  detectMultiScale : GrayFrame -> list Rect;
  ellipse_covers : Z * Z -> Z * Z -> Z -> Z -> bool;
  calcOpticalFlowFarneback :
    GrayFrame -> GrayFrame -> list (list float32) * list (list float32)
}.

Definition sys_exit {A : Type} (message : string) : Py A :=
  Raise (SystemExit (Some message)).

Definition read_video (w : World) (video : string)
  : Py (list GrayFrame * list BGRFrame) :=
  match VideoCapture w video with
  | Some frames =>
      let processed := map (preprocessMMI w) frames in
      Ret (map fst processed, map snd processed)
  | None => sys_exit "Error opening video file."
  end.

(** [l[i]] *)
Definition py_index {A : Type} (l : list A) (i : nat) : Py A :=
  match nth_error l i with
  | Some a => Ret a
  | None => Raise IndexError
  end.

Definition usage (argv0 : string) : string :=
  ("Usage: " ++ argv0 ++ " <max_frame_count> <path_to_video> <output_path>")%string.

(** [main]: the files written, or the exception that ends the run. *)
Definition main (w : World) : Py (list (string * Z)) :=
  if (length (argv w) <? 4)%nat
  then argv0 <- py_index (argv w) 0 ;; sys_exit (usage argv0)
  else
    arg1 <- py_index (argv w) 1 ;;
    max_frame_count <-
      match int_of_string w arg1 with
      | Some n => Ret n
      | None => Raise ValueError
      end ;;
    arg2 <- py_index (argv w) 2 ;;
    arg3 <- py_index (argv w) 3 ;;
    let video_path := abspath w arg2 in
    let output_path := abspath w arg3 in
    if negb (isfile w video_path)
    then sys_exit "The specified <path_to_video> argument is not a valid filename"
    else if negb (isdir w output_path)
    then sys_exit "The specified <output_path> argument is not a valid directory"
    else
      frames <- read_video w video_path ;;
      cropped <- face_pass (detectMultiScale w) (ellipse_covers w)
                           (fst frames) (snd frames) ;;
      _ <- flow_pass_static (calcOpticalFlowFarneback w) (fst cropped) ;;
      static_flows <- flow_pass_static (calcOpticalFlowFarneback w) (fst cropped) ;;
      out1 <- save_to_disk (snd cropped) "frame-bgr" max_frame_count ;;
      out2 <- save_to_disk (fst cropped) "frame-gray" max_frame_count ;;
      flow_x <- py_index static_flows 0 ;;
      out3 <- save_to_disk flow_x "flow-x" max_frame_count ;;
      flow_y <- py_index static_flows 1 ;;
      out4 <- save_to_disk flow_y "flow-y" max_frame_count ;;
      Ret (out1 ++ out2 ++ out3 ++ out4).

(** How the interpreter ends the process: [sys.exit()] gives status 0,
    [sys.exit(message)] prints the message and gives status 1, any other
    uncaught exception prints a traceback and gives status 1. *)
Definition exit_status {A : Type} (r : Py A) : Z :=
  match r with
  | Ret _ => 0
  | Raise (SystemExit None) => 0
  | Raise _ => 1
  end.

Inductive Stderr : Type :=
| Silent
| Message (text : string)
| Traceback (e : PyExn).

Definition stderr_output {A : Type} (r : Py A) : Stderr :=
  match r with
  | Ret _ => Silent
  | Raise (SystemExit None) => Silent
  | Raise (SystemExit (Some text)) => Message text
  | Raise e => Traceback e
  end.

(** * The other scripts *)

(** ** Further outcomes *)

(** The exceptions of the other scripts: those above, and three more. *)
Inductive PyError : Type :=
| Builtin (e : PyExn)
| NameError (name : string)   (* a global name that is not defined *)
| TypeError                   (* int(None), map(str, None) *)
| StopIteration.              (* next() on an exhausted generator *)

Inductive Run (A : Type) : Type :=
| Done (a : A)
| Failed (e : PyError).
Arguments Done {A} a.
Arguments Failed {A} e.

Definition run_bind {A B : Type} (m : Run A) (k : A -> Run B) : Run B :=
  match m with
  | Done a => k a
  | Failed e => Failed e
  end.

Notation "x <~ m ;; k" := (run_bind m (fun x => k))
  (at level 61, m at next level, right associativity).

Definition of_py {A : Type} (m : Py A) : Run A :=
  match m with
  | Ret a => Done a
  | Raise e => Failed (Builtin e)
  end.

Definition run_exit {A : Type} (message : string) : Run A :=
  Failed (Builtin (SystemExit (Some message))).

(** ** optical_flow.py *)

Module OpticalFlow.

(** [detect_face]: the first rectangle of the detector; [faces[0]] on an
    empty result raises. *)
Definition detect_face (detectMultiScale : BGRFrame -> list Rect)
  (image : BGRFrame) : Py Rect :=
  match detectMultiScale image with
  | [] => Raise IndexError
  | face :: _ => Ret face
  end.

(** [preprocessMMI]: [image[0:576, 360:720]]. *)
Definition preprocessMMI (image : BGRFrame) : BGRFrame :=
  crop image 0 576 360 720.

(** The state of the first loop of [face_pass]. *)
Record Window : Type := mkWindow {
  minX : Z;
  minY : Z;
  maxWidth : Z;
  maxHeight : Z;
  images : list BGRFrame
}.

Section FacePass.
(** [sys.maxint] *)
Variable maxint : Z.
Variable detectMultiScale : BGRFrame -> list Rect.
Variable ellipse_covers : Z * Z -> Z * Z -> Z -> Z -> bool.

(** One turn of the [while cap.isOpened()] loop on a frame that was
    read. *)
Definition face_step (state : Window) (img : BGRFrame) : Py Window :=
  let image := preprocessMMI img in
  face <- detect_face detectMultiScale image ;;
  let '(x, y, w, h) := face in
  Ret {| minX := Z.min (minX state) x;
         minY := Z.min (minY state) y;
         maxWidth := Z.max (maxWidth state) w;
         maxHeight := Z.max (maxHeight state) h;
         images := images state ++ [image] |}.

Fixpoint face_loop (state : Window) (frames : list BGRFrame) : Py Window :=
  match frames with
  | [] => Ret state
  | img :: rest => next <- face_step state img ;; face_loop next rest
  end.

(** The window and the images after the first loop; [video] is what
    [cap.read()] delivers, [None] when the capture is not opened. *)
Definition face_window (video : option (list BGRFrame)) : Py Window :=
  let start := {| minX := maxint; minY := maxint;
                  maxWidth := 0; maxHeight := 0; images := [] |} in
  match video with
  | Some frames => face_loop start frames
  | None => Ret start
  end.

(** The body of the second loop: crop to the window, mask. *)
Definition crop_and_mask_image (window : Window) (image : BGRFrame)
  : BGRFrame :=
  let cropped_image :=
    crop image (minY window) (minY window + maxHeight window)
               (minX window) (minX window + maxWidth window) in
  apply_mask ellipse_covers cropped_image (maxWidth window) (maxHeight window).

(** [face_pass], a generator: everything it yields, or the exception
    its first [next()] raises. *)
Definition face_pass (video : option (list BGRFrame)) : Py (list BGRFrame) :=
  window <- face_window video ;;
  Ret (map (crop_and_mask_image window) (images window)).
End FacePass.

(** How [flow_pass] ends. *)
Inductive FlowEnd : Type :=
| Finished                (* the loop ended, the windows are destroyed *)
| Waiting                 (* [cv2.waitKey(0)] waits for a key *)
| Died (e : PyError).

(** The [for image in images] loop of [flow_pass] on the remaining
    images and the keys the user presses, one per image shown: the
    files written and how the loop ends.  Key 27 leaves the loop; key
    [ord('s')] = 115 writes [opticalfb.png] and then reads the name
    [rgb], which the script never binds. *)
Fixpoint flow_loop (images : list BGRFrame) (keys : list Z)
  : list string * FlowEnd :=
  match images with
  | [] => ([], Finished)
  | image :: rest =>
      match keys with
      | [] => ([], Waiting)
      | key :: later =>
          let k := Z.land key 255 in
          if k =? 27 then ([], Finished)
          else if k =? 115
          then (["opticalfb.png"%string], Died (NameError "rgb"))
          else flow_loop rest later
      end
  end.

(** [flow_pass]: [images.next()] takes the first image, or raises what
    the generator raises. *)
Definition flow_pass (images : Py (list BGRFrame)) (keys : list Z)
  : list string * FlowEnd :=
  match images with
  | Raise e => ([], Died (Builtin e))
  | Ret [] => ([], Died StopIteration)
  | Ret (prev :: rest) => flow_loop rest keys
  end.

Definition usage (argv0 : string) : string :=
  ("Usage: " ++ argv0 ++ " <path_to_video>")%string.

(** [main]: the files written and how the run ends. *)
Definition main (maxint : Z) (detectMultiScale : BGRFrame -> list Rect)
  (w : World) (keys : list Z) : list string * FlowEnd :=
  if (length (argv w) <? 2)%nat
  then
    match nth_error (argv w) 0 with
    | Some argv0 => ([], Died (Builtin (SystemExit (Some (usage argv0)))))
    | None => ([], Died (Builtin IndexError))
    end
  else
    match nth_error (argv w) 1 with
    | None => ([], Died (Builtin IndexError))
    | Some arg1 =>
        let video_path := abspath w arg1 in
        if negb (isfile w video_path)
        then ([], Died (Builtin (SystemExit
                 (Some "The specified argument is not a valid filename"%string))))
        else
          flow_pass (face_pass maxint detectMultiScale (ellipse_covers w)
                               (VideoCapture w video_path)) keys
    end.

End OpticalFlow.

(** ** parse_mmi_xml.py *)

(** [s.replace(old, new)] for a non-empty [old]: every occurrence found
    scanning from the left is replaced; [skip] counts the characters of
    an occurrence still to be passed over. *)
Fixpoint replace_from (old new : string) (skip : nat) (s : string) : string :=
  match s with
  | EmptyString => EmptyString
  | String c rest =>
      match skip with
      | S n => replace_from old new n rest
      | O =>
          if String.prefix old s
          then (new ++ replace_from old new (String.length old - 1) rest)%string
          else String c (replace_from old new 0 rest)
      end
  end.

Definition py_replace (s old new : string) : string :=
  replace_from old new 0 s.

Module ParseMMI.

(** A [sortedcontainers.SortedDict] with integer keys: the items in key
    order. *)
Definition SortedDict (V : Type) : Type := list (Z * V).

(** [d.get(key)] *)
Fixpoint sd_get {V : Type} (d : SortedDict V) (key : Z) : option V :=
  match d with
  | [] => None
  | (k, v) :: rest => if k =? key then Some v else sd_get rest key
  end.

(** [d[key] = value] *)
Fixpoint sd_set {V : Type} (d : SortedDict V) (key : Z) (value : V)
  : SortedDict V :=
  match d with
  | [] => [(key, value)]
  | (k, v) :: rest =>
      if key <? k then (key, value) :: d
      else if key =? k then (key, value) :: rest
      else (k, v) :: sd_set rest key value
  end.

(** [d.keys()] *)
Definition sd_keys {V : Type} (d : SortedDict V) : list Z := map fst d.

(** An [ActionUnit] element as [parseXML] reads it: its [Number]
    attribute and the [Frame] attributes of its [Marker] children;
    [None] is a missing attribute. *)
Record ActionUnit : Type := mkActionUnit {
  Number : option string;
  Markers : list (option string)
}.

Definition Metadata : Type := SortedDict (list (option string)).

Section ParseXML.
(** [int(s)] on a string; [None] stands for its [ValueError]. *)
Variable int_of_string : string -> option Z.

(** The body of the inner loop, for one marker. *)
Definition add_marker (facs_code : option string) (result : Metadata)
  (frame_attribute : option string) : Run Metadata :=
  match frame_attribute with
  | None => Failed TypeError
  | Some text =>
      match int_of_string text with
      | None => Failed (Builtin ValueError)
      | Some frame_number =>
          let frames :=
            match sd_get result frame_number with
            | Some found => found
            | None => []
            end in
          Done (sd_set result frame_number (frames ++ [facs_code]))
      end
  end.

Fixpoint add_markers (facs_code : option string) (result : Metadata)
  (markers : list (option string)) : Run Metadata :=
  match markers with
  | [] => Done result
  | marker :: rest =>
      next <~ add_marker facs_code result marker ;;
      add_markers facs_code next rest
  end.

Fixpoint add_action_units (result : Metadata) (action_units : list ActionUnit)
  : Run Metadata :=
  match action_units with
  | [] => Done result
  | au :: rest =>
      next <~ add_markers (Number au) result (Markers au) ;;
      add_action_units next rest
  end.

(** [parseXML], from the list [root.findall(".//ActionUnit")]. *)
Definition parseXML (action_units : list ActionUnit) : Run Metadata :=
  add_action_units [] action_units.
End ParseXML.

(** The frame set [save_to_disk_with_facs] reads. *)
Record FrameSet (F : Type) : Type := mkFrameSet {
  frames : list F;
  processName : string;
  streamName : string
}.
Arguments frames {F} _.
Arguments processName {F} _.
Arguments streamName {F} _.

(** [str(code)] on an attribute value. *)
Definition py_str (code : option string) : string :=
  match code with
  | Some text => text
  | None => "None"
  end.

(** A file of [save_to_disk_with_facs]: the four values its name
    ["%s_%s-%s_%s.png"] is formatted from. *)
Record FacsFile : Type := mkFacsFile {
  file_process : string;
  file_stream : string;
  file_frame : Z;
  file_facs : string
}.

(** The loop of [save_to_disk_with_facs] over the frame numbers: the
    files written, and the exception that stops the loop, if any. *)
Fixpoint write_facs_frames (processName streamName : string)
  (metadata : Metadata) (relevant_frames : list Z) (numbers : list Z)
  : list FacsFile * option PyError :=
  match numbers with
  | [] => ([], None)
  | i :: rest =>
      if negb (py_in i relevant_frames)
      then write_facs_frames processName streamName metadata relevant_frames rest
      else
        match sd_get metadata i with
        | None => ([], Some TypeError)
        | Some facs_units =>
            let facs_string := String.concat "_" (map py_str facs_units) in
            let later := write_facs_frames processName streamName metadata
                           relevant_frames rest in
            (mkFacsFile processName streamName i facs_string :: fst later,
             snd later)
        end
  end.

(** [save_to_disk_with_facs] *)
Definition save_to_disk_with_facs {F : Type} (frameSet : FrameSet F)
  (metadata : Metadata) : list FacsFile * option PyError :=
  let relevant_frames := sd_keys metadata in
  write_facs_frames (processName frameSet) (streamName frameSet) metadata
    relevant_frames (indices (Z.of_nat (length (frames frameSet)))).

Definition usage (argv0 : string) : string :=
  ("Usage: " ++ argv0 ++ " <path_to_video> <output_path>")%string.

(** [main].  [findall] stands for [ET.parse(path).getroot().findall] on
    the metadata file, with whatever it raises; after [read_video] the
    loop header calls [multiply_frames], a name neither this script nor
    [extract_frames] defines. *)
Definition main (w : World) (int_of_text : string -> option Z)
  (findall : string -> Run (list ActionUnit)) : Run (list FacsFile) :=
  if (length (argv w) <? 3)%nat
  then argv0 <~ of_py (py_index (argv w) 0) ;; run_exit (usage argv0)
  else
    arg1 <~ of_py (py_index (argv w) 1) ;;
    arg2 <~ of_py (py_index (argv w) 2) ;;
    let video_path := abspath w arg1 in
    let output_path := abspath w arg2 in
    if negb (isfile w video_path)
    then run_exit "The specified <path_to_video> argument is not a valid filename"
    else if negb (isdir w output_path)
    then run_exit "The specified <output_path> argument is not a valid directory"
    else
      let metadata_file := py_replace video_path ".avi" "-oao_aucs.xml" in
      action_units <~ findall metadata_file ;;
      metadata <~ parseXML int_of_text action_units ;;
      frames <~ of_py (read_video w video_path) ;;
      Failed (NameError "multiply_frames").

End ParseMMI.

(** ** web-server/server.py *)

Module Server.

(** [sub in s] on strings. *)
Fixpoint py_contains (sub s : string) : bool :=
  String.prefix sub s ||
  match s with
  | EmptyString => false
  | String _ rest => py_contains sub rest
  end.

Definition ALLOWED_WORDS : list string :=
  ["avi"; "mpg"; "mpeg"; "mkv"; "webm"; "mp4"]%string.

(** [isAllowed] of [uploadVideo] *)
Definition isAllowed (filename : string) : bool :=
  (0 <? length (filter (fun ext => py_contains ext filename) ALLOWED_WORDS))%nat.

End Server.

(** ** Vocabulary of the properties *)

(** A frame index is visited by the detection loop when it is a multiple
    of ten. *)
Definition visited (i : nat) : Prop := Z.of_nat i mod 10 = 0.

(** Every rectangle of [faces], taken in order, has its centre strictly
    inside the cluster as it stands when the rectangle arrives, so each
    one is merged into that cluster. *)
Fixpoint merges_all (c : Cluster) (faces : list Rect) : bool :=
  match faces with
  | [] => true
  | face :: rest =>
      point_in_rect (center_point face) c && merges_all (merge_face c face) rest
  end.

(** The clip of the end-to-end scenario: fifty one-pixel frames, frame
    [i] holding the value [i], and a detector that reports the rectangle
    [(10, 10, 40, 40)] on the frames 0, 10, 20, 30, 40 and nothing on any
    other frame. *)
Definition scenario_rect : Rect := (10, 10, 40, 40).

Definition scenario_frames : list GrayFrame :=
  map (fun i => [[Z.of_nat i]]) (seq 0 50).

Definition scenario_detector (image : GrayFrame) : list Rect :=
  match image with
  | [[v]] => if v mod 10 =? 0 then [scenario_rect] else []
  | _ => []
  end.

(** A 20-frame clip whose detector finds a face on frame 0 only. *)
Definition face_then_none_frames : list GrayFrame :=
  map (fun i => [[Z.of_nat i]]) (seq 0 20).

Definition face_then_none_detector (image : GrayFrame) : list Rect :=
  match image with
  | [[0]] => [(0, 0, 1, 1)]
  | _ => []
  end.

(** The row lengths of a frame. *)
Definition shape {P : Type} (frame : Frame P) : list nat := map (@length P) frame.

(** An image proper: all rows have the width of the first. *)
Definition is_image {P : Type} (frame : Frame P) : Prop :=
  forall row, In row frame -> Z.of_nat (length row) = frame_width frame.

(** The value [apply_mask] leaves at column [x], row [y]. *)
Definition masked_pixel {P : Type} `{Pixel P}
  (ellipse_covers : Z * Z -> Z * Z -> Z -> Z -> bool)
  (center axes : Z * Z) (y x : Z) (p : P) : P :=
  pixel_and p (if ellipse_covers center axes x y then pixel_white else pixel_zero).

(** A rasteriser for the examples: the lattice points of the ellipse
    with the given centre and semi-axes. *)
Definition ellipse_equation (center axes : Z * Z) (x y : Z) : bool :=
  let '(cx, cy) := center in
  let '(a, b) := axes in
  (x - cx) * (x - cx) * (b * b) + (y - cy) * (y - cy) * (a * a)
    <=? a * a * (b * b).

(** A 4-row, 6-column gray frame and a 5-by-5 region at (3, 2) that
    reaches past its right and bottom edges. *)
Definition example_frame : GrayFrame :=
  [[ 10;  20;  30;  40;  50;  60];
   [ 70;  80;  90; 100; 110; 120];
   [130; 140; 150; 160; 170; 180];
   [190; 200; 210; 220; 230; 240]].

Definition example_region : Cluster := mkCluster 3 2 5 5 7.

(** The display formula in the design document's words:
    [clip(raw * scale_factor + 128, 0, 255)], stored as an 8-bit value. *)
Definition spec_clip (v lo hi : Q) : Q :=
  if Qle_bool v lo then lo else if Qle_bool hi v then hi else v.

Definition spec_display (scale_factor raw : Q) : Z :=
  cvRound (spec_clip (raw * scale_factor + 128) 0 255).

(** The sampler in the design document's words: all indices without a
    budget, else [floor(i * stride)] for [i] in [0 .. max_count-1] with
    the real-valued stride [sequence_length / max_count]. *)
Definition spec_sample (sequence_length max_count : Z) : list Z :=
  if max_count <=? 0
  then indices sequence_length
  else map (fun i => Qfloor (inject_Z i * (inject_Z sequence_length
                                             / inject_Z max_count)))
           (indices max_count).

(** A stand-in flow solver for the examples: the displacement at a pixel
    is the difference of the two frames there, in both directions, so
    that a frame compared with itself has the zero field. *)
Definition difference_solver (frame1 frame2 : GrayFrame)
  : list (list float32) * list (list float32) :=
  let d := zip_with (zip_with (fun a b => f32_of_Z (b - a))) frame1 frame2 in
  (d, d).

(** A run with well-formed arguments, an existing one-frame video and an
    existing output directory, on which the detector finds no face. *)
Definition no_face_world : World :=
  {| argv := ["extract_frames.py"; "10"; "clip.avi"; "out"]%string;
     int_of_string := fun s => if String.eqb s "10" then Some 10 else None;
     abspath := fun p => ("/data/" ++ p)%string;
     isfile := fun p => String.eqb p "/data/clip.avi";
     isdir := fun p => String.eqb p "/data/out";
     VideoCapture := fun _ => Some [[[(1, 2, 3)]]];
     preprocessMMI := fun f => ([[2]], f);
     detectMultiScale := fun _ => [];
     ellipse_covers := ellipse_equation;
     calcOpticalFlowFarneback := difference_solver |}.

(** Displacements of [k] sixteenths of a pixel, from -32 to 32 pixels,
    and the check that the stored value of such a displacement is the
    rounded [clip(|raw * scale + 128|, 0, 255)] of exact arithmetic. *)
Definition sixteenths : list Z := map (fun i => i - 512) (indices 1025).

Definition stored_as_exact (k : Z) : bool :=
  flow_display (f32_of_dyadic k (-4))
  =? cvRound (spec_clip (Qabs ((k # 16) * inject_Z flow_scale + 128)) 0 255).

(** A 51-frame clip with three faces: the detector reports all three on
    the frames 0, 10, 20, 30 and only the second and third on the frames
    40 and 50, so the final clusters have counts 3, 5, 5. *)
Definition tied_frames : list GrayFrame :=
  map (fun i => [[Z.of_nat i]]) (seq 0 51).

Definition tied_detector (image : GrayFrame) : list Rect :=
  match image with
  | [[v]] =>
      if v mod 10 =? 0
      then if v <? 40
           then [(0, 0, 30, 30); (100, 0, 30, 30); (200, 0, 30, 30)]
           else [(100, 0, 30, 30); (200, 0, 30, 30)]
      else []
  | _ => []
  end.

(** The single-precision quotient -94 / 3, a displacement of about
    -31.33 pixels: the float -16427691 * 2^-19. *)
Definition mirror_of_ten : float32 :=
  SFdiv 24 128 (f32_of_Z (-94)) (f32_of_Z 3).

(** ** Vocabulary of the further properties *)

(** A detected rectangle that lies inside a frame of [W] columns and
    [H] rows. *)
Definition rect_in_frame (W H : Z) (face : Rect) : Prop :=
  let '(x, y, w, h) := face in
  0 <= x /\ 0 <= y /\ 0 <= w /\ 0 <= h /\ x + w <= W /\ y + h <= H.

(** A cluster whose window lies inside such a frame. *)
Definition cluster_in_frame (W H : Z) (c : Cluster) : Prop :=
  0 <= minX c /\ 0 <= minY c /\ 0 <= maxWidth c /\ 0 <= maxHeight c /\
  minX c + maxWidth c <= W /\ minY c + maxHeight c <= H.

(** The sum of the counts of a cluster list. *)
Definition total_count (known : list Cluster) : Z :=
  fold_right (fun c acc => count c + acc) 0 known.

(** A frame of exactly [H] rows of [W] pixels. *)
Definition frame_of_size {P : Type} (W H : Z) (frame : Frame P) : Prop :=
  frame_height frame = H /\
  forall row, In row frame -> Z.of_nat (length row) = W.

(** A detector for the examples: the rectangle (2, 1, 3, 2) on every
    frame. *)
Definition fixed_detector (image : GrayFrame) : list Rect := [(2, 1, 3, 2)].

Definition example_bgr_frame : BGRFrame :=
  map (map (fun v => (v, v, v))) example_frame.

(** Runs for the examples: the given arguments, video and detector; the
    paths [clip.avi] and [out] exist, ["0"] and ["10"] are the integers
    [int] accepts, the gray frame of a colour frame is its green
    channel. *)
Definition example_world (args : list string)
  (video : option (list BGRFrame)) (detector : GrayFrame -> list Rect)
  : World :=
  {| argv := args;
     int_of_string := fun s =>
       if String.eqb s "10" then Some 10
       else if String.eqb s "0" then Some 0 else None;
     abspath := fun p => ("/data/" ++ p)%string;
     isfile := fun p => String.eqb p "/data/clip.avi";
     isdir := fun p => String.eqb p "/data/out";
     VideoCapture := fun _ => video;
     preprocessMMI := fun f => (map (map (fun p => snd (fst p))) f, f);
     detectMultiScale := detector;
     ellipse_covers := ellipse_equation;
     calcOpticalFlowFarneback := difference_solver |}.

(** The [Number] attributes of the action units that mark the frame
    [frame], one for every marker that names it, in document order. *)
Definition marker_names (int_of_string : string -> option Z) (frame : Z)
  (marker : option string) : bool :=
  match marker with
  | Some text =>
      match int_of_string text with
      | Some n => n =? frame
      | None => false
      end
  | None => false
  end.

Definition marked_codes (int_of_string : string -> option Z)
  (action_units : list ParseMMI.ActionUnit) (frame : Z)
  : list (option string) :=
  flat_map
    (fun au =>
       map (fun _ => ParseMMI.Number au)
           (filter (marker_names int_of_string frame) (ParseMMI.Markers au)))
    action_units.

(** Decimal numerals for the examples. *)
Definition example_int (s : string) : option Z :=
  if String.eqb s "3" then Some 3
  else if String.eqb s "7" then Some 7 else None.

Definition example_action_units : list ParseMMI.ActionUnit :=
  [ParseMMI.mkActionUnit (Some "12"%string) [Some "3"%string; Some "7"%string];
   ParseMMI.mkActionUnit (Some "25"%string) [Some "3"%string]].

(** [None] for no codes, else the codes: what the dictionary holds for a
    frame. *)
Definition some_if_any {A : Type} (l : list A) : option (list A) :=
  match l with
  | [] => None
  | _ => Some l
  end.

Definition has_any {A : Type} (l : list A) : bool :=
  match l with
  | [] => false
  | _ => true
  end.

(** The dictionary holds, for every frame, the codes that [codes] lists
    for it. *)
Definition holds (d : ParseMMI.Metadata) (codes : Z -> list (option string))
  : Prop :=
  forall frame, ParseMMI.sd_get d frame = some_if_any (codes frame).

(** * Properties *)

(** ** Region consensus tracker *)

Lemma remember_face_not_nil (face : Rect) (known : list Cluster) :
  remember_face face known <> [].
Proof.
  destruct known as [|head tail]; simpl; [discriminate|].
  destruct (point_in_rect _ head); discriminate.
Qed.

Lemma remember_faces_not_nil (faces : list Rect) :
  forall known, faces <> [] \/ known <> [] -> remember_faces faces known <> [].
Proof.
  unfold remember_faces.
  induction faces as [|face faces IH]; intros known Hne; simpl.
  - destruct Hne as [Hne|Hne]; [now elim Hne | exact Hne].
  - apply IH. right. apply remember_face_not_nil.
Qed.


(** The detection loop either meets a visited frame without candidates
    and exits, or runs to the end over frames that all have candidates. *)
Lemma detection_loop_cases (cascade : GrayFrame -> list Rect)
  (frames : list GrayFrame) :
  forall i known,
    (exists known',
        detection_loop cascade i frames known = Ret known' /\
        (known <> [] -> known' <> []) /\
        (forall j f, nth_error frames j = Some f ->
                     (i + Z.of_nat j) mod 10 = 0 -> cascade f <> []))
    \/
    (detection_loop cascade i frames known = Raise (SystemExit None) /\
     exists j f, nth_error frames j = Some f /\
                 (i + Z.of_nat j) mod 10 = 0 /\ cascade f = []).
Proof.
  induction frames as [|frame rest IH]; intros i known; simpl.
  - left. exists known. repeat split; auto.
    intros [|j] f Hj; discriminate.
  - destruct (i mod 10 =? 0) eqn:Hi; simpl.
    + unfold detect_face.
      destruct (cascade frame) as [|r faces] eqn:Hc; simpl.
      * right. split; [reflexivity|].
        exists 0%nat, frame. apply Z.eqb_eq in Hi.
        rewrite Z.add_0_r. auto.
      * destruct (IH (i + 1) (remember_faces (r :: faces) known))
          as [(known' & Hrun & Hne & Hall) | (Hrun & j & f & Hj & Hv & Hf)].
        -- left. exists known'. split; [exact Hrun|]. split.
           ++ intros _. apply Hne. apply remember_faces_not_nil.
              left. discriminate.
           ++ intros [|j] f Hj Hv; simpl in Hj.
              ** injection Hj as <-. rewrite Hc. discriminate.
              ** apply (Hall j f Hj).
                 replace (i + 1 + Z.of_nat j) with (i + Z.of_nat (S j)) by lia.
                 exact Hv.
        -- right. split; [exact Hrun|].
           exists (S j), f. repeat split; auto.
           replace (i + Z.of_nat (S j)) with (i + 1 + Z.of_nat j) by lia.
           exact Hv.
    + apply Z.eqb_neq in Hi.
      destruct (IH (i + 1) known)
        as [(known' & Hrun & Hne & Hall) | (Hrun & j & f & Hj & Hv & Hf)].
      * left. exists known'. split; [exact Hrun|]. split; [exact Hne|].
        intros [|j] f Hj Hv; simpl in Hj.
        -- rewrite Z.add_0_r in Hv. contradiction.
        -- apply (Hall j f Hj).
           replace (i + 1 + Z.of_nat j) with (i + Z.of_nat (S j)) by lia.
           exact Hv.
      * right. split; [exact Hrun|].
        exists (S j), f. repeat split; auto.
        replace (i + Z.of_nat (S j)) with (i + 1 + Z.of_nat j) by lia.
        exact Hv.
Qed.

(** The first frame of a clip is always visited, so a completed loop
    over a non-empty clip leaves at least one cluster. *)
Lemma known_faces_of_cases (cascade : GrayFrame -> list Rect)
  (frames : list GrayFrame) :
  (exists known',
      known_faces_of cascade frames = Ret known' /\
      (frames <> [] -> known' <> []) /\
      (forall j f, nth_error frames j = Some f -> visited j -> cascade f <> []))
  \/
  (known_faces_of cascade frames = Raise (SystemExit None) /\
   exists j f, nth_error frames j = Some f /\ visited j /\ cascade f = []).
Proof.
  unfold known_faces_of, visited.
  destruct (detection_loop_cases cascade frames 0 [])
    as [(known' & Hrun & _ & Hall) | (Hrun & j & f & Hj & Hv & Hf)].
  - left. exists known'. split; [exact Hrun|]. split; [|exact Hall].
    intros Hne. destruct frames as [|frame rest]; [now elim Hne|].
    simpl in Hrun. unfold detect_face in Hrun.
    pose proof (Hall 0%nat frame eq_refl eq_refl) as Hc.
    destruct (cascade frame) as [|r faces] eqn:Hcf; [now elim Hc|].
    simpl in Hrun.
    destruct (detection_loop_cases cascade rest 1
                (remember_faces faces [new_face r]))
      as [(k2 & Hrun2 & Hne2 & _) | (Hrun2 & _)].
    + rewrite Hrun2 in Hrun. injection Hrun as <-.
      apply Hne2. apply remember_faces_not_nil. right. discriminate.
    + rewrite Hrun2 in Hrun. discriminate.
  - right. split; [exact Hrun|]. exists j, f. auto.
Qed.

Lemma detection_loop_unvisited (cascade : GrayFrame -> list Rect) (i : Z)
  (frame : GrayFrame) (rest : list GrayFrame) (known : list Cluster) :
  i mod 10 <> 0 ->
  detection_loop cascade i (frame :: rest) known
  = detection_loop cascade (i + 1) rest known.
Proof.
  intros Hi. simpl. apply Z.eqb_neq in Hi. rewrite Hi. reflexivity.
Qed.

Lemma detection_loop_visited (cascade : GrayFrame -> list Rect) (i : Z)
  (frame : GrayFrame) (rest : list GrayFrame) (known : list Cluster)
  (face : Rect) (faces : list Rect) :
  i mod 10 = 0 ->
  cascade frame = face :: faces ->
  detection_loop cascade i (frame :: rest) known
  = detection_loop cascade (i + 1) rest (remember_faces (face :: faces) known).
Proof.
  intros Hi Hc. cbn [detection_loop]. apply Z.eqb_eq in Hi. rewrite Hi.
  unfold detect_face. rewrite Hc. reflexivity.
Qed.

Ltac detection_step :=
  match goal with
  | |- context [detection_loop ?c ?i (?f :: ?r) ?k] =>
      first
        [ rewrite (detection_loop_unvisited c i f r k)
            by (vm_compute; discriminate)
        | erewrite (detection_loop_visited c i f r k)
            by first [eassumption | reflexivity] ]
  end.

(** C1 (as amended).  For a 50-frame clip on which the detector returns
    exactly the rectangle (10,10,40,40) on each visited frame 0, 10, 20,
    30, 40, the tracker ends with exactly one cluster, the canonical
    region is that cluster with envelope minX=10, minY=10, maxWidth=40,
    maxHeight=40, and its count is 4: the detection that creates the
    cluster leaves the count at 0 and each of the four later detections
    adds one. *)
Theorem C1_scenario_single_cluster_count
  (cascade : GrayFrame -> list Rect) (framesGray : list GrayFrame) :
  length framesGray = 50%nat ->
  (forall i frame, In i [0; 10; 20; 30; 40]%nat ->
                   nth_error framesGray i = Some frame ->
                   cascade frame = [scenario_rect]) ->
  known_faces_of cascade framesGray = Ret [mkCluster 10 10 40 40 4] /\
  most_significant_face cascade framesGray = Ret (mkCluster 10 10 40 40 4).
Proof.
  intros Hlen Hdet.
  do 50 (destruct framesGray as [|? framesGray]; [discriminate Hlen|]).
  destruct framesGray; [|discriminate Hlen].
  pose proof (Hdet 0%nat _ ltac:(simpl; tauto) eq_refl) as H0.
  pose proof (Hdet 10%nat _ ltac:(simpl; tauto) eq_refl) as H10.
  pose proof (Hdet 20%nat _ ltac:(simpl; tauto) eq_refl) as H20.
  pose proof (Hdet 30%nat _ ltac:(simpl; tauto) eq_refl) as H30.
  pose proof (Hdet 40%nat _ ltac:(simpl; tauto) eq_refl) as H40.
  clear Hlen Hdet.
  match goal with
  | |- known_faces_of _ ?fs = _ /\ _ =>
      assert (Hk : known_faces_of cascade fs = Ret [mkCluster 10 10 40 40 4])
  end.
  { unfold known_faces_of. do 50 detection_step. reflexivity. }
  split; [exact Hk|].
  unfold most_significant_face. rewrite Hk. reflexivity.
Qed.

Lemma scenario_detector_on_visited (i : nat) (frame : GrayFrame) :
  In i [0; 10; 20; 30; 40]%nat ->
  nth_error scenario_frames i = Some frame ->
  scenario_detector frame = [scenario_rect].
Proof.
  intros Hi Hf. simpl in Hi.
  destruct Hi as [<- | [<- | [<- | [<- | [<- | []]]]]];
    vm_compute in Hf; injection Hf as <-; reflexivity.
Qed.

(** The scenario clip satisfies the hypotheses of C1. *)
Lemma C1_scenario_witness :
  length scenario_frames = 50%nat /\
  (forall i frame, In i [0; 10; 20; 30; 40]%nat ->
                   nth_error scenario_frames i = Some frame ->
                   scenario_detector frame = [scenario_rect]) /\
  known_faces_of scenario_detector scenario_frames
    = Ret [mkCluster 10 10 40 40 4] /\
  most_significant_face scenario_detector scenario_frames
    = Ret (mkCluster 10 10 40 40 4).
Proof.
  split; [reflexivity|].
  split; [exact scenario_detector_on_visited|].
  apply (C1_scenario_single_cluster_count scenario_detector scenario_frames).
  - reflexivity.
  - exact scenario_detector_on_visited.
Defined.

(** C1 as stated fails: on the scenario clip the canonical region does
    not have count 5. *)
Lemma C1_count_five_fails :
  ~ (forall (cascade : GrayFrame -> list Rect) (framesGray : list GrayFrame),
        length framesGray = 50%nat ->
        (forall i frame, In i [0; 10; 20; 30; 40]%nat ->
                         nth_error framesGray i = Some frame ->
                         cascade frame = [scenario_rect]) ->
        exists region,
          most_significant_face cascade framesGray = Ret region /\
          known_faces_of cascade framesGray = Ret [region] /\
          minX region = 10 /\ minY region = 10 /\
          maxWidth region = 40 /\ maxHeight region = 40 /\
          count region = 5).
Proof.
  intros Hclaim.
  destruct (Hclaim scenario_detector scenario_frames eq_refl
              scenario_detector_on_visited)
    as (region & Hregion & _ & _ & _ & _ & _ & Hcount).
  vm_compute in Hregion. injection Hregion as <-.
  discriminate Hcount.
Qed.

Lemma py_max_not_nil {A : Type} (key : A -> Z) (l : list A) :
  l <> [] -> exists a, py_max key l = Ret a.
Proof.
  destruct l as [|a rest]; [intros Hne; now elim Hne|].
  intros _. exists (max_from key a rest). reflexivity.
Qed.

(** C2 (as amended).  The tracker exits (SystemExit, raised by
    [detect_face]) if and only if some visited frame yields no candidate
    rectangle, whatever the other frames yield; tracking completes and a
    canonical region is returned if and only if the clip is non-empty
    and every visited frame yields at least one candidate. *)
Theorem C2_exit_iff_some_visited_frame_without_face
  (cascade : GrayFrame -> list Rect) (framesGray : list GrayFrame) :
  ((exists arg,
       most_significant_face cascade framesGray = Raise (SystemExit arg))
   <->
   (exists i frame, visited i /\ nth_error framesGray i = Some frame /\
                    cascade frame = []))
  /\
  ((exists region, most_significant_face cascade framesGray = Ret region)
   <->
   (framesGray <> [] /\
    forall i frame, visited i -> nth_error framesGray i = Some frame ->
                    cascade frame <> [])).
Proof.
  unfold most_significant_face.
  destruct (known_faces_of_cases cascade framesGray)
    as [(known & Hrun & Hne & Hall) | (Hrun & j & f & Hj & Hv & Hf)];
    rewrite Hrun; simpl.
  - split; split.
    + intros [arg Hexit]. destruct known; discriminate Hexit.
    + intros (i & frame & Hv & Hi & Hc). elim (Hall i frame Hi Hv Hc).
    + intros [region Hregion]. split.
      * intros ->. vm_compute in Hrun. injection Hrun as <-.
        discriminate Hregion.
      * intros i frame Hv Hi. exact (Hall i frame Hi Hv).
    + intros [Hnil _]. apply py_max_not_nil. exact (Hne Hnil).
  - split; split.
    + intros _. exists j, f. auto.
    + intros _. exists None. reflexivity.
    + intros [region Hregion]. discriminate Hregion.
    + intros [_ Hall]. elim (Hall j f Hv Hj Hf).
Qed.

(** C2 as stated fails: frame 0 of the clip yields a candidate, yet the
    run exits because frame 10 yields none. *)
Lemma C2_exit_despite_a_detection :
  face_then_none_detector [[0]] = [(0, 0, 1, 1)] /\
  nth_error face_then_none_frames 0 = Some [[0]] /\
  most_significant_face face_then_none_detector face_then_none_frames
    = Raise (SystemExit None) /\
  ~ (forall (cascade : GrayFrame -> list Rect) (framesGray : list GrayFrame),
        (exists i frame, visited i /\ nth_error framesGray i = Some frame /\
                         cascade frame <> []) ->
        exists region, most_significant_face cascade framesGray = Ret region).
Proof.
  split; [reflexivity|]. split; [reflexivity|]. split; [reflexivity|].
  intros Hclaim.
  destruct (Hclaim face_then_none_detector face_then_none_frames)
    as [region Hregion].
  - exists 0%nat, [[0]]. repeat split; discriminate.
  - vm_compute in Hregion. discriminate Hregion.
Qed.

(** ** Canonical selection *)

Lemma max_from_first_greatest {A : Type} (key : A -> Z) (l : list A) :
  forall best,
    let c := max_from key best l in
    key best <= key c /\
    (forall d, In d l -> key d <= key c) /\
    (c = best \/
     exists i, nth_error l i = Some c /\ key best < key c /\
               forall j d, (j < i)%nat -> nth_error l j = Some d ->
                           key d < key c).
Proof.
  induction l as [|a rest IH]; intros best; simpl.
  - repeat split; [lia | intros d [] | now left].
  - destruct (key a >? key best) eqn:Hgt.
    + apply Z.gtb_lt in Hgt.
      destruct (IH a) as (Hle & Hall & Hpos).
      split; [lia|]. split.
      * intros d [<- | Hd]; [exact Hle | exact (Hall d Hd)].
      * right. destruct Hpos as [Heq | (i & Hi & Hlt & Hbefore)].
        -- exists 0%nat. rewrite Heq. simpl. repeat split; [lia|].
           intros j d Hj. lia.
        -- exists (S i). simpl. repeat split; [exact Hi | lia |].
           intros [|j] d Hj Hd; simpl in Hd.
           ++ injection Hd as <-. exact Hlt.
           ++ apply (Hbefore j d); [lia | exact Hd].
    + assert (Hle0 : key a <= key best).
      { rewrite Z.gtb_ltb in Hgt. apply Z.ltb_ge in Hgt. exact Hgt. }
      destruct (IH best) as (Hle & Hall & Hpos).
      split; [exact Hle|]. split.
      * intros d [<- | Hd]; [lia | exact (Hall d Hd)].
      * destruct Hpos as [Heq | (i & Hi & Hlt & Hbefore)]; [now left|].
        right. exists (S i). simpl. repeat split; [exact Hi | exact Hlt |].
        intros [|j] d Hj Hd; simpl in Hd.
        -- injection Hd as <-. lia.
        -- apply (Hbefore j d); [lia | exact Hd].
Qed.

(** [max] with the key [count] on a non-empty list returns an element
    of greatest count, the first of them. *)
Lemma py_max_first_of_max_count (known_faces : list Cluster) :
  known_faces <> [] ->
  exists i region,
    nth_error known_faces i = Some region /\
    py_max count known_faces = Ret region /\
    (forall d, In d known_faces -> count d <= count region) /\
    (forall j d, (j < i)%nat -> nth_error known_faces j = Some d ->
                 count d < count region).
Proof.
  destruct known_faces as [|a rest]; [intros Hne; now elim Hne|].
  intros _. simpl.
  destruct (max_from_first_greatest count rest a) as (Hle & Hall & Hpos).
  destruct Hpos as [Heq | (i & Hi & Hlt & Hbefore)].
  - exists 0%nat, a. rewrite Heq in *. simpl. repeat split.
    + intros d [<- | Hd]; [lia | exact (Hall d Hd)].
    + intros j d Hj. lia.
  - exists (S i), (max_from count a rest). simpl. repeat split.
    + exact Hi.
    + intros d [<- | Hd]; [exact Hle | exact (Hall d Hd)].
    + intros [|j] d Hj Hd; simpl in Hd.
      * injection Hd as <-. exact Hlt.
      * apply (Hbefore j d); [lia | exact Hd].
Qed.

(** Clusters with counts [3, 5, 5] in creation order: the second one,
    the first to hold count 5, is selected. *)
Example canonical_of_3_5_5 (a b c : Cluster) :
  count a = 3 -> count b = 5 -> count c = 5 ->
  py_max count [a; b; c] = Ret b.
Proof.
  intros Ha Hb Hc. simpl. rewrite Ha, Hb, Hc. simpl. rewrite Hb. reflexivity.
Qed.

(** C7.  The canonical region that the tracker selects, and that
    [face_pass] crops every frame of both streams with, is a cluster of
    maximum count of the final cluster list, and it is the first-created
    one among those of maximum count: every cluster before it in
    creation order has a strictly smaller count.  In particular, when
    the final clusters have counts 3, 5, 5 in creation order, the second
    cluster is the canonical region. *)
Theorem C7_canonical_region_is_first_of_max_count
  (cascade : GrayFrame -> list Rect)
  (covers : Z * Z -> Z * Z -> Z -> Z -> bool)
  (framesGray : list GrayFrame) (framesBGR : list BGRFrame)
  (known_faces : list Cluster) :
  known_faces_of cascade framesGray = Ret known_faces ->
  framesGray <> [] ->
  exists i region,
    nth_error known_faces i = Some region /\
    most_significant_face cascade framesGray = Ret region /\
    face_pass cascade covers framesGray framesBGR
      = Ret (map (fun f => crop_and_mask covers f region) framesGray,
             map (fun f => crop_and_mask covers f region) framesBGR) /\
    (forall d, In d known_faces -> count d <= count region) /\
    (forall j d, (j < i)%nat -> nth_error known_faces j = Some d ->
                 count d < count region) /\
    (forall a b c, known_faces = [a; b; c] ->
                   count a = 3 -> count b = 5 -> count c = 5 -> region = b).
Proof.
  intros Hknown Hframes.
  assert (Hne : known_faces <> []).
  { destruct (known_faces_of_cases cascade framesGray)
      as [(known' & Hrun & Hne & _) | (Hrun & _)];
      rewrite Hrun in Hknown; [|discriminate].
    injection Hknown as <-. exact (Hne Hframes). }
  destruct (py_max_first_of_max_count known_faces Hne)
    as (i & region & Hi & Hmax & Hgreatest & Hfirst).
  assert (Hregion : most_significant_face cascade framesGray = Ret region).
  { unfold most_significant_face. rewrite Hknown. exact Hmax. }
  exists i, region.
  split; [exact Hi|]. split; [exact Hregion|].
  split; [unfold face_pass; rewrite Hregion; reflexivity|].
  split; [exact Hgreatest|]. split; [exact Hfirst|].
  intros a b c -> Ha Hb Hc.
  destruct i as [|[|[|i]]]; simpl in Hi;
    try (destruct i; discriminate); injection Hi as <-.
  - pose proof (Hgreatest b ltac:(simpl; tauto)). lia.
  - reflexivity.
  - pose proof (Hfirst 1%nat b ltac:(lia) eq_refl). lia.
Qed.

Lemma C7_tied_clip_witness :
  known_faces_of tied_detector tied_frames
    = Ret [mkCluster 0 0 30 30 3; mkCluster 100 0 30 30 5;
           mkCluster 200 0 30 30 5] /\
  tied_frames <> [] /\
  most_significant_face tied_detector tied_frames
    = Ret (mkCluster 100 0 30 30 5) /\
  exists i region,
    nth_error [mkCluster 0 0 30 30 3; mkCluster 100 0 30 30 5;
               mkCluster 200 0 30 30 5] i = Some region /\
    most_significant_face tied_detector tied_frames = Ret region /\
    face_pass tied_detector ellipse_equation tied_frames []
      = Ret (map (fun f => crop_and_mask ellipse_equation f region) tied_frames,
             map (fun f => crop_and_mask ellipse_equation f region) []) /\
    (forall d, In d [mkCluster 0 0 30 30 3; mkCluster 100 0 30 30 5;
                     mkCluster 200 0 30 30 5] -> count d <= count region) /\
    (forall j d, (j < i)%nat ->
                 nth_error [mkCluster 0 0 30 30 3; mkCluster 100 0 30 30 5;
                            mkCluster 200 0 30 30 5] j = Some d ->
                 count d < count region) /\
    (forall a b c,
        [mkCluster 0 0 30 30 3; mkCluster 100 0 30 30 5;
         mkCluster 200 0 30 30 5] = [a; b; c] ->
        count a = 3 -> count b = 5 -> count c = 5 -> region = b).
Proof.
  split; [vm_compute; reflexivity|].
  split; [discriminate|].
  split; [vm_compute; reflexivity|].
  apply (C7_canonical_region_is_first_of_max_count
           tied_detector ellipse_equation tied_frames []
           [mkCluster 0 0 30 30 3; mkCluster 100 0 30 30 5;
            mkCluster 200 0 30 30 5]).
  - vm_compute; reflexivity.
  - discriminate.
Defined.

(** ** Cluster monotonicity *)

Lemma merge_face_grows (c : Cluster) (face : Rect) :
  maxWidth c <= maxWidth (merge_face c face) /\
  maxHeight c <= maxHeight (merge_face c face) /\
  minX (merge_face c face) <= minX c /\
  minY (merge_face c face) <= minY c /\
  count (merge_face c face) = count c + 1.
Proof.
  destruct face as [[[x y] w] h]. simpl. lia.
Qed.

Lemma merged_sequence_grows (faces : list Rect) :
  forall c,
    let c' := fold_left merge_face faces c in
    maxWidth c <= maxWidth c' /\
    maxHeight c <= maxHeight c' /\
    minX c' <= minX c /\
    minY c' <= minY c /\
    count c' = count c + Z.of_nat (length faces).
Proof.
  induction faces as [|face rest IH]; intros c; cbn [fold_left length].
  - cbn. lia.
  - specialize (IH (merge_face c face)). cbv zeta in IH.
    pose proof (merge_face_grows c face). lia.
Qed.

Lemma remember_faces_single (faces : list Rect) :
  forall c,
    merges_all c faces = true ->
    remember_faces faces [c] = [fold_left merge_face faces c].
Proof.
  unfold remember_faces.
  induction faces as [|face rest IH]; intros c Hall; simpl.
  - reflexivity.
  - simpl in Hall. apply andb_true_iff in Hall as [Hin Hrest].
    rewrite Hin. apply IH. exact Hrest.
Qed.

Lemma merges_all_app (before after : list Rect) :
  forall c,
    merges_all c (before ++ after) = true ->
    merges_all c before = true /\
    merges_all (fold_left merge_face before c) after = true.
Proof.
  induction before as [|face rest IH]; intros c Hall; simpl in *.
  - auto.
  - apply andb_true_iff in Hall as [Hin Hrest].
    rewrite Hin. simpl. apply IH. exact Hrest.
Qed.

(** In a list of clusters, one call of [remember_face] leaves every
    existing cluster in place, either untouched or merged with the
    rectangle. *)
Lemma remember_face_keeps_clusters (face : Rect) (known : list Cluster) :
  forall i c,
    nth_error known i = Some c ->
    nth_error (remember_face face known) i = Some c \/
    nth_error (remember_face face known) i = Some (merge_face c face).
Proof.
  induction known as [|head tail IH]; intros [|i] c Hc; simpl in *;
    try discriminate.
  - injection Hc as <-. destruct (point_in_rect _ head); simpl; auto.
  - destruct (point_in_rect _ head); simpl; auto.
Qed.

(** Whatever rectangles arrive and wherever a cluster sits in the list,
    it stays at its index, its dimensions and count do not decrease and
    its origin does not increase. *)
Lemma remember_faces_cluster_grows (faces : list Rect) :
  forall known i c,
    nth_error known i = Some c ->
    exists c',
      nth_error (remember_faces faces known) i = Some c' /\
      maxWidth c <= maxWidth c' /\ maxHeight c <= maxHeight c' /\
      minX c' <= minX c /\ minY c' <= minY c /\
      count c <= count c' <= count c + Z.of_nat (length faces).
Proof.
  unfold remember_faces.
  induction faces as [|face rest IH]; intros known i c Hc;
    cbn [fold_left length].
  - exists c. split; [exact Hc | lia].
  - destruct (remember_face_keeps_clusters face known i c Hc) as [Hk | Hk];
      destruct (IH _ i _ Hk) as (c' & Hc' & Hgrow);
      exists c'; (split; [exact Hc'|]).
    + lia.
    + pose proof (merge_face_grows c face). lia.
Qed.

(** C8.  For every sequence of rectangles merged into a single cluster,
    the cluster after more merges has maxWidth and maxHeight no smaller
    than before, an origin (minX, minY) no greater, an area no smaller,
    and a count greater by exactly the number of rectangles merged in
    between. *)
Theorem C8_merged_cluster_only_grows
  (c : Cluster) (before after : list Rect) :
  merges_all c (before ++ after) = true ->
  exists c1 c2,
    remember_faces before [c] = [c1] /\
    remember_faces (before ++ after) [c] = [c2] /\
    maxWidth c1 <= maxWidth c2 /\
    maxHeight c1 <= maxHeight c2 /\
    minX c2 <= minX c1 /\
    minY c2 <= minY c1 /\
    (0 <= maxWidth c1 -> 0 <= maxHeight c1 ->
     maxWidth c1 * maxHeight c1 <= maxWidth c2 * maxHeight c2) /\
    count c2 = count c1 + Z.of_nat (length after).
Proof.
  intros Hall.
  destruct (merges_all_app before after c Hall) as [Hbefore Hafter].
  exists (fold_left merge_face before c),
         (fold_left merge_face (before ++ after) c).
  split; [apply remember_faces_single; exact Hbefore|].
  split; [apply remember_faces_single; exact Hall|].
  rewrite fold_left_app.
  pose proof (merged_sequence_grows after (fold_left merge_face before c))
    as Hgrow.
  cbv zeta in Hgrow.
  destruct Hgrow as (Hw & Hh & Hx & Hy & Hcount).
  repeat split; try assumption.
  intros Hw0 Hh0. apply Z.mul_le_mono_nonneg; assumption.
Qed.

Lemma C8_three_merges_witness :
  merges_all (mkCluster 10 10 40 40 0)
             ([(10, 10, 40, 40)] ++ [(5, 8, 50, 45); (12, 12, 30, 30)]) = true /\
  exists c1 c2,
    remember_faces [(10, 10, 40, 40)] [mkCluster 10 10 40 40 0] = [c1] /\
    remember_faces ([(10, 10, 40, 40)] ++ [(5, 8, 50, 45); (12, 12, 30, 30)])
                   [mkCluster 10 10 40 40 0] = [c2] /\
    maxWidth c1 <= maxWidth c2 /\
    maxHeight c1 <= maxHeight c2 /\
    minX c2 <= minX c1 /\
    minY c2 <= minY c1 /\
    (0 <= maxWidth c1 -> 0 <= maxHeight c1 ->
     maxWidth c1 * maxHeight c1 <= maxWidth c2 * maxHeight c2) /\
    count c2 = count c1 + Z.of_nat (length [(5, 8, 50, 45); (12, 12, 30, 30)]).
Proof.
  split; [reflexivity|].
  apply (C8_merged_cluster_only_grows (mkCluster 10 10 40 40 0)
           [(10, 10, 40, 40)] [(5, 8, 50, 45); (12, 12, 30, 30)]).
  reflexivity.
Defined.

(** The merged box keeps its size but may move: merging (0, 0, 40, 40)
    into the cluster (10, 10, 40, 40) gives (0, 0, 40, 40), whose right
    and bottom edges lie at 40 where they lay at 50. *)
Example merged_box_moves :
  remember_face (0, 0, 40, 40) [mkCluster 10 10 40 40 0]
  = [mkCluster 0 0 40 40 1].
Proof.
  reflexivity.
Qed.

(** ** Crop-and-mask transformer *)

Lemma slice_bound_range (i len : Z) :
  0 <= len -> 0 <= slice_bound i len <= len.
Proof.
  unfold slice_bound. intros Hlen.
  destruct (i <? 0) eqn:Hi; [lia|]. apply Z.ltb_ge in Hi. lia.
Qed.

Lemma py_slice_length {A : Type} (lo hi : Z) (l : list A) :
  Z.of_nat (length (py_slice lo hi l))
  = Z.max 0 (slice_bound hi (Z.of_nat (length l))
             - slice_bound lo (Z.of_nat (length l))).
Proof.
  unfold py_slice. cbv zeta.
  pose proof (slice_bound_range lo (Z.of_nat (length l)) (Nat2Z.is_nonneg _)).
  pose proof (slice_bound_range hi (Z.of_nat (length l)) (Nat2Z.is_nonneg _)).
  rewrite length_firstn, length_skipn. lia.
Qed.

Lemma py_slice_incl {A : Type} (lo hi : Z) (l : list A) (a : A) :
  In a (py_slice lo hi l) -> In a l.
Proof.
  unfold py_slice. cbv zeta. intros Hin.
  set (a0 := Z.to_nat (slice_bound lo (Z.of_nat (length l)))) in *.
  set (n := Z.to_nat _) in Hin.
  rewrite <- (firstn_skipn a0 l). apply in_or_app. right.
  rewrite <- (firstn_skipn n (skipn a0 l)). apply in_or_app. now left.
Qed.

Lemma map_indexed_length {A B : Type} (f : Z -> A -> B) (l : list A) :
  forall i, length (map_indexed f i l) = length l.
Proof.
  induction l as [|a rest IH]; intros i; simpl; [reflexivity|].
  now rewrite IH.
Qed.

Section MaskShape.
Variable covers : Z * Z -> Z * Z -> Z -> Z -> bool.
Context {P : Type} `{Pixel P}.

Lemma mask_row (center axes : Z * Z) (y : Z) (row : list P) :
  forall x0,
    zip_with pixel_and row
      (map_indexed
         (fun x p => if covers center axes x y then pixel_white else p)
         x0 (map (fun _ => pixel_zero) row))
    = map_indexed (masked_pixel covers center axes y) x0 row.
Proof.
  induction row as [|p rest IH]; intros x0; simpl; [reflexivity|].
  rewrite IH. unfold masked_pixel.
  destruct (covers center axes x0 y); reflexivity.
Qed.

Lemma mask_rows (center axes : Z * Z) (frame : Frame P) :
  forall y0,
    zip_with (zip_with pixel_and) frame
      (map_indexed
         (fun y row =>
            map_indexed
              (fun x p => if covers center axes x y then pixel_white else p)
              0 row)
         y0 (zeros_like frame))
    = map_indexed
        (fun y row => map_indexed (masked_pixel covers center axes y) 0 row)
        y0 frame.
Proof.
  induction frame as [|row rest IH]; intros y0; simpl; [reflexivity|].
  rewrite mask_row. f_equal. apply IH.
Qed.

(** [apply_mask] pixel by pixel. *)
Lemma apply_mask_pointwise (frame : Frame P) (w h : Z) :
  apply_mask covers frame w h
  = map_indexed
      (fun y row =>
         map_indexed
           (masked_pixel covers
              (int_times_half w, int_times_half h)
              (int_times_0_4 w, int_times_half h) y) 0 row)
      0 frame.
Proof.
  unfold apply_mask, bitwise_and, ellipse. cbv zeta. apply mask_rows.
Qed.

Lemma shape_map_indexed (g : Z -> Z -> P -> P) (frame : Frame P) :
  forall y0,
    shape (map_indexed (fun y row => map_indexed (g y) 0 row) y0 frame)
    = shape frame.
Proof.
  unfold shape.
  induction frame as [|row rest IH]; intros y0; simpl; [reflexivity|].
  now rewrite map_indexed_length, IH.
Qed.

(** Masking keeps the shape of the cropped frame. *)
Lemma apply_mask_shape (frame : Frame P) (w h : Z) :
  shape (apply_mask covers frame w h) = shape frame.
Proof.
  rewrite apply_mask_pointwise. apply shape_map_indexed.
Qed.
End MaskShape.

Lemma frame_height_shape {P : Type} (frame : Frame P) :
  frame_height frame = Z.of_nat (length (shape frame)).
Proof.
  unfold frame_height, shape. now rewrite length_map.
Qed.

Lemma frame_width_shape {P : Type} (frame : Frame P) :
  frame_width frame = Z.of_nat (hd 0%nat (shape frame)).
Proof.
  destruct frame; reflexivity.
Qed.

Lemma crop_height {P : Type} (frame : Frame P) (y0 y1 x0 x1 : Z) :
  frame_height (crop frame y0 y1 x0 x1)
  = Z.max 0 (slice_bound y1 (frame_height frame)
             - slice_bound y0 (frame_height frame)).
Proof.
  unfold crop, frame_height. rewrite length_map. apply py_slice_length.
Qed.

Lemma crop_row_length {P : Type} (frame : Frame P) (y0 y1 x0 x1 : Z)
  (row : list P) :
  is_image frame ->
  In row (crop frame y0 y1 x0 x1) ->
  Z.of_nat (length row)
  = Z.max 0 (slice_bound x1 (frame_width frame)
             - slice_bound x0 (frame_width frame)).
Proof.
  unfold crop. intros Himg Hin.
  apply in_map_iff in Hin as (src & <- & Hsrc).
  apply py_slice_incl in Hsrc.
  rewrite py_slice_length, (Himg src Hsrc). reflexivity.
Qed.

Lemma crop_width {P : Type} (frame : Frame P) (y0 y1 x0 x1 : Z) :
  is_image frame ->
  frame_width (crop frame y0 y1 x0 x1) <= frame_width frame.
Proof.
  intros Himg.
  assert (Hw : 0 <= frame_width frame)
    by (destruct frame; simpl; lia).
  destruct (crop frame y0 y1 x0 x1) as [|row rest] eqn:Hcrop.
  - exact Hw.
  - cbn [frame_width].
    rewrite (crop_row_length frame y0 y1 x0 x1 row Himg)
      by (rewrite Hcrop; now left).
    pose proof (slice_bound_range x0 _ Hw).
    pose proof (slice_bound_range x1 _ Hw). lia.
Qed.

(** C9.  For a region with non-negative minX and minY, also one that
    extends past the frame, the crop is a total operation whose result is
    no taller and no wider than the frame; for a region of non-negative
    dimensions it is the region clamped to the frame (min with the
    frame's height and width): the result has the clamped height and
    rows of the clamped width. *)
Theorem C9_crop_clamped_to_frame
  (covers : Z * Z -> Z * Z -> Z -> Z -> bool)
  {P : Type} `{Pixel P} (frame : Frame P) (region : Cluster) :
  is_image frame ->
  0 <= minX region -> 0 <= minY region ->
  let out := crop_and_mask covers frame region in
  frame_width out <= frame_width frame /\
  frame_height out <= frame_height frame /\
  (0 <= maxWidth region -> 0 <= maxHeight region ->
   frame_height out
     = Z.min (minY region + maxHeight region) (frame_height frame)
       - Z.min (minY region) (frame_height frame) /\
   forall row, In row out ->
     Z.of_nat (length row)
     = Z.min (minX region + maxWidth region) (frame_width frame)
       - Z.min (minX region) (frame_width frame)).
Proof.
  intros Himg Hx Hy out. subst out. unfold crop_and_mask. cbv zeta.
  set (cropped := crop frame (minY region) (minY region + maxHeight region)
                       (minX region) (minX region + maxWidth region)).
  pose proof (apply_mask_shape covers cropped (maxWidth region)
                (maxHeight region)) as Hshape.
  assert (HH : 0 <= frame_height frame) by (unfold frame_height; lia).
  assert (HW : 0 <= frame_width frame) by (destruct frame; simpl; lia).
  assert (Hheight :
    frame_height (apply_mask covers cropped (maxWidth region) (maxHeight region))
    = Z.max 0 (slice_bound (minY region + maxHeight region) (frame_height frame)
               - slice_bound (minY region) (frame_height frame))).
  { rewrite frame_height_shape, Hshape, <- frame_height_shape.
    unfold cropped. apply crop_height. }
  split; [|split].
  - rewrite frame_width_shape, Hshape, <- frame_width_shape.
    apply crop_width. exact Himg.
  - rewrite Hheight.
    pose proof (slice_bound_range (minY region) _ HH).
    pose proof (slice_bound_range (minY region + maxHeight region) _ HH).
    lia.
  - intros Hw Hh. split.
    + rewrite Hheight. unfold slice_bound.
      destruct (minY region + maxHeight region <? 0) eqn:E1; [lia|].
      destruct (minY region <? 0) eqn:E2; [lia|]. lia.
    + intros row Hin.
      assert (Hlen : In (length row) (shape cropped)).
      { rewrite <- Hshape. unfold shape. apply in_map. exact Hin. }
      unfold shape in Hlen. apply in_map_iff in Hlen as (src & Hsrc & Hin').
      rewrite <- Hsrc.
      unfold cropped in Hin'.
      rewrite (crop_row_length _ _ _ _ _ src Himg Hin').
      unfold slice_bound.
      destruct (minX region + maxWidth region <? 0) eqn:E1; [lia|].
      destruct (minX region <? 0) eqn:E2; [lia|]. lia.
Qed.

Lemma C9_region_past_the_frame_witness :
  is_image example_frame /\
  0 <= minX example_region /\ 0 <= minY example_region /\
  frame_width (crop_and_mask ellipse_equation example_frame example_region)
    <= frame_width example_frame /\
  frame_height (crop_and_mask ellipse_equation example_frame example_region)
    <= frame_height example_frame /\
  (0 <= maxWidth example_region -> 0 <= maxHeight example_region ->
   frame_height (crop_and_mask ellipse_equation example_frame example_region)
     = Z.min (minY example_region + maxHeight example_region)
             (frame_height example_frame)
       - Z.min (minY example_region) (frame_height example_frame) /\
   forall row,
     In row (crop_and_mask ellipse_equation example_frame example_region) ->
     Z.of_nat (length row)
     = Z.min (minX example_region + maxWidth example_region)
             (frame_width example_frame)
       - Z.min (minX example_region) (frame_width example_frame)).
Proof.
  assert (Himg : is_image example_frame).
  { intros row Hin. simpl in Hin.
    destruct Hin as [<- | [<- | [<- | [<- | []]]]]; reflexivity. }
  split; [exact Himg|].
  split; [simpl; lia|]. split; [simpl; lia|].
  apply (C9_crop_clamped_to_frame ellipse_equation example_frame example_region).
  - exact Himg.
  - simpl; lia.
  - simpl; lia.
Defined.

(** ** Mask idempotence *)

Lemma map_indexed_compose {A B C : Type} (f : Z -> A -> B) (g : Z -> B -> C)
  (l : list A) :
  forall i,
    map_indexed g i (map_indexed f i l)
    = map_indexed (fun j a => g j (f j a)) i l.
Proof.
  induction l as [|a rest IH]; intros i; simpl; [reflexivity|].
  now rewrite IH.
Qed.

Lemma map_indexed_ext {A B : Type} (f g : Z -> A -> B) (l : list A) :
  (forall j a, f j a = g j a) ->
  forall i, map_indexed f i l = map_indexed g i l.
Proof.
  intros Hext. induction l as [|a rest IH]; intros i; simpl; [reflexivity|].
  now rewrite Hext, IH.
Qed.

Lemma map_indexed_nth_error {A B : Type} (f : Z -> A -> B) (l : list A) :
  forall i n,
    nth_error (map_indexed f i l) n
    = option_map (f (i + Z.of_nat n)) (nth_error l n).
Proof.
  induction l as [|a rest IH]; intros i [|n]; simpl; try reflexivity.
  - now rewrite Z.add_0_r.
  - rewrite IH. do 2 f_equal. lia.
Qed.

Section MaskTwice.
Variable covers : Z * Z -> Z * Z -> Z -> Z -> bool.
Context {P : Type} `{Pixel P}.
Hypothesis pixel_and_absorbs :
  forall p m : P, pixel_and (pixel_and p m) m = pixel_and p m.

Lemma apply_mask_twice (frame : Frame P) (w h : Z) :
  apply_mask covers (apply_mask covers frame w h) w h
  = apply_mask covers frame w h.
Proof.
  rewrite !apply_mask_pointwise, map_indexed_compose.
  apply map_indexed_ext. intros y row.
  rewrite map_indexed_compose.
  apply map_indexed_ext. intros x p.
  unfold masked_pixel. apply pixel_and_absorbs.
Qed.
End MaskTwice.

Lemma land_absorbs (p m : Z) : Z.land (Z.land p m) m = Z.land p m.
Proof.
  now rewrite <- Z.land_assoc, Z.land_diag.
Qed.

Lemma gray_and_absorbs (p m : Z) :
  pixel_and (pixel_and p m) m = pixel_and p m.
Proof.
  apply land_absorbs.
Qed.

Lemma bgr_and_absorbs (p m : Z * Z * Z) :
  pixel_and (pixel_and p m) m = pixel_and p m.
Proof.
  destruct p as [[b1 g1] r1], m as [[b2 g2] r2]. simpl.
  now rewrite !land_absorbs.
Qed.

Lemma land_255 (p : Z) : 0 <= p < 256 -> Z.land p 255 = p.
Proof.
  intros Hp. change 255 with (Z.ones 8).
  rewrite Z.land_ones by lia. apply Z.mod_small. exact Hp.
Qed.

(** C10.  The masking step is idempotent on both streams: masking a
    masked frame again for the same region dimensions changes nothing.
    In a masked gray frame of 8-bit values a pixel the ellipse covers
    keeps its value and every other pixel is zero. *)
Theorem C10_mask_idempotent
  (covers : Z * Z -> Z * Z -> Z -> Z -> bool) (w h : Z) :
  (forall frame : GrayFrame,
      apply_mask covers (apply_mask covers frame w h) w h
      = apply_mask covers frame w h) /\
  (forall frame : BGRFrame,
      apply_mask covers (apply_mask covers frame w h) w h
      = apply_mask covers frame w h) /\
  (forall (frame : GrayFrame) (y x : nat) (row : list Z) (p : Z),
      nth_error frame y = Some row ->
      nth_error row x = Some p ->
      0 <= p < 256 ->
      exists row',
        nth_error (apply_mask covers frame w h) y = Some row' /\
        nth_error row' x
        = Some (if covers (int_times_half w, int_times_half h)
                          (int_times_0_4 w, int_times_half h)
                          (Z.of_nat x) (Z.of_nat y)
                then p else 0)).
Proof.
  split; [|split].
  - intros frame. apply apply_mask_twice. exact gray_and_absorbs.
  - intros frame. apply apply_mask_twice. exact bgr_and_absorbs.
  - intros frame y x row p Hrow Hp Hrange.
    rewrite apply_mask_pointwise, map_indexed_nth_error, Hrow. simpl.
    eexists. split; [reflexivity|].
    rewrite map_indexed_nth_error, Hp. simpl.
    unfold masked_pixel. simpl.
    destruct (covers _ _ _ _).
    + now rewrite land_255.
    + now rewrite Z.land_0_r.
Qed.

(** On the example frame: masking once and masking twice. *)
Example mask_example_twice :
  let once := crop_and_mask ellipse_equation example_frame example_region in
  once = [[0; 0; 180]; [0; 230; 240]] /\
  apply_mask ellipse_equation once 5 5 = once.
Proof.
  vm_compute. split; reflexivity.
Qed.

(** ** Flow rescaling *)

Lemma cvRound_near (q : Q) :
  (inject_Z (cvRound q) - (1 # 2) <= q <= inject_Z (cvRound q) + (1 # 2))%Q.
Proof.
  unfold cvRound. cbv zeta.
  pose proof (Qfloor_le q) as Hlo.
  pose proof (Qlt_floor q) as Hhi.
  rewrite inject_Z_plus in Hhi. change (inject_Z 1) with 1%Q in Hhi.
  destruct (q - inject_Z (Qfloor q) ?= 1 # 2)%Q eqn:Hc.
  - apply Qeq_alt in Hc.
    destruct (Z.even (Qfloor q));
      [|rewrite inject_Z_plus; change (inject_Z 1) with 1%Q]; lra.
  - apply Qlt_alt in Hc. lra.
  - apply Qgt_alt in Hc. rewrite inject_Z_plus.
    change (inject_Z 1) with 1%Q. lra.
Qed.

Lemma cvRound_le_Z (q : Q) (z : Z) : (q <= inject_Z z)%Q -> cvRound q <= z.
Proof.
  intros Hq. destruct (cvRound_near q) as [Hlo _].
  assert (H : (inject_Z (cvRound q) < inject_Z (z + 1))%Q)
    by (rewrite inject_Z_plus; change (inject_Z 1) with 1%Q; lra).
  rewrite <- Zlt_Qlt in H. lia.
Qed.

Lemma cvRound_ge_Z (q : Q) (z : Z) : (inject_Z z <= q)%Q -> z <= cvRound q.
Proof.
  intros Hq. destruct (cvRound_near q) as [_ Hhi].
  assert (H : (inject_Z (z + -1) < inject_Z (cvRound q))%Q)
    by (rewrite inject_Z_plus; change (inject_Z (-1)) with (-1 # 1)%Q; lra).
  rewrite <- Zlt_Qlt in H. lia.
Qed.

Lemma cvRound_Z (z : Z) : cvRound (inject_Z z) = z.
Proof.
  pose proof (cvRound_le_Z (inject_Z z) z ltac:(lra)).
  pose proof (cvRound_ge_Z (inject_Z z) z ltac:(lra)). lia.
Qed.

(** Saturating the rounded value is clipping before rounding. *)
Lemma saturate_round_is_round_clip (q : Q) :
  saturate_uchar (cvRound q) = cvRound (spec_clip q 0 255).
Proof.
  unfold saturate_uchar, spec_clip.
  destruct (Qle_bool q 0) eqn:H0.
  - apply Qle_bool_iff in H0.
    pose proof (cvRound_le_Z q 0 H0) as Hle.
    change 0%Q with (inject_Z 0). rewrite cvRound_Z.
    destruct (cvRound q <? 0) eqn:E; [reflexivity|].
    apply Z.ltb_ge in E.
    destruct (255 <? cvRound q) eqn:E'; [apply Z.ltb_lt in E'; lia | lia].
  - assert (Hpos : (0 < q)%Q).
    { apply Qnot_le_lt. intros Hle. apply Qle_bool_iff in Hle. congruence. }
    assert (Hge : 0 <= cvRound q).
    { apply cvRound_ge_Z. change (inject_Z 0) with 0%Q. lra. }
    destruct (cvRound q <? 0) eqn:E; [apply Z.ltb_lt in E; lia|].
    destruct (Qle_bool 255 q) eqn:H255.
    + apply Qle_bool_iff in H255.
      pose proof (cvRound_ge_Z q 255 H255) as Hge'.
      change 255%Q with (inject_Z 255). rewrite cvRound_Z.
      destruct (255 <? cvRound q) eqn:E'; [reflexivity|].
      apply Z.ltb_ge in E'. lia.
    + assert (Hlt : (q < 255)%Q).
      { apply Qnot_le_lt. intros Hle. apply Qle_bool_iff in Hle. congruence. }
      assert (Hle : cvRound q <= 255).
      { apply cvRound_le_Z. change (inject_Z 255) with 255%Q. lra. }
      destruct (255 <? cvRound q) eqn:E'; [apply Z.ltb_lt in E'; lia|].
      reflexivity.
Qed.

Lemma cvRound_comp (p q : Q) : (p == q)%Q -> cvRound p = cvRound q.
Proof.
  intros E. unfold cvRound. cbv zeta.
  rewrite (Qfloor_comp p q E).
  assert (Hc : (p - inject_Z (Qfloor q) ?= 1 # 2)%Q
               = (q - inject_Z (Qfloor q) ?= 1 # 2)%Q)
    by (apply Qcompare_comp; [rewrite E; reflexivity | reflexivity]).
  now rewrite Hc.
Qed.

Lemma clip_comp (p q : Q) : (p == q)%Q -> (spec_clip p 0 255 == spec_clip q 0 255)%Q.
Proof.
  intros E. unfold spec_clip.
  assert (H0 : Qle_bool p 0 = Qle_bool q 0).
  { apply eq_true_iff_eq. rewrite !Qle_bool_iff, E. reflexivity. }
  assert (H255 : Qle_bool 255 p = Qle_bool 255 q).
  { apply eq_true_iff_eq. rewrite !Qle_bool_iff, E. reflexivity. }
  rewrite H0, H255.
  destruct (Qle_bool q 0); [reflexivity|].
  destruct (Qle_bool 255 q); [reflexivity | exact E].
Qed.

Lemma saturate_uchar_range (v : Z) : 0 <= saturate_uchar v <= 255.
Proof.
  unfold saturate_uchar.
  destruct (v <? 0) eqn:E; [lia|]. apply Z.ltb_ge in E.
  destruct (255 <? v) eqn:E'; [lia|]. apply Z.ltb_ge in E'. lia.
Qed.

(** ** Continuous flow *)

(** The continuous pass pairs as many frames as it is given. *)
Lemma continuous_pairs_length (framesGray : list GrayFrame)
  (pairs : list (GrayFrame * GrayFrame)) :
  continuous_pairs framesGray = Ret pairs ->
  length pairs = length framesGray.
Proof.
  destruct framesGray as [|first rest]; [discriminate|].
  unfold continuous_pairs. intros Hp. injection Hp as <-.
  cbn [map combine length]. f_equal.
  rewrite length_combine, length_map. apply Nat.min_id.
Qed.

Lemma combine_map_nth_error {A B : Type} (g : A -> B) (l : list A) :
  forall i a,
    nth_error l i = Some a ->
    nth_error (combine (map g l) l) i = Some (g a, a).
Proof.
  induction l as [|x l IH]; intros [|i] a Hi; simpl in *; try discriminate.
  - injection Hi as ->. reflexivity.
  - apply IH. exact Hi.
Qed.

(** What is compared at index [i]: the sum of the first frame and frame
    [i], with frame [i]. *)
Lemma continuous_pairs_nth (framesGray : list GrayFrame)
  (first frame : GrayFrame) (i : nat) :
  nth_error framesGray 0 = Some first ->
  nth_error framesGray i = Some frame ->
  exists pairs,
    continuous_pairs framesGray = Ret pairs /\
    nth_error pairs i = Some (np_add first frame, frame).
Proof.
  destruct framesGray as [|f0 rest]; [discriminate|].
  intros Hfirst Hi. injection Hfirst as ->.
  unfold continuous_pairs. eexists. split; [reflexivity|].
  apply combine_map_nth_error. exact Hi.
Qed.

(** C4 on a clip of two one-pixel frames with values 5 and 7.  The
    continuous pass compares 5+5 with 5 and 5+7 with 7, where the design
    document has 5 with 5 and 5 with 7; with a solver that reports the
    difference of the two frames, the flow stored at index 0 is 68 and
    not the midpoint 128. *)
Theorem C4_continuous_pass_compares_sums :
  continuous_pairs [[[5]]; [[7]]]
    = Ret [([[10]], [[5]]); ([[12]], [[7]])] /\
  continuous_pairs [[[5]]; [[7]]]
    <> Ret [([[5]], [[5]]); ([[5]], [[7]])] /\
  flow_pass_continuous difference_solver [[[5]]; [[7]]]
    = Ret [[[[68]]; [[68]]]; [[[68]]; [[68]]]] /\
  calculateFlow difference_solver [[5]] [[5]] = ([[128]], [[128]]) /\
  calculateFlow difference_solver [[5]] [[7]] = ([[152]], [[152]]).
Proof.
  repeat split. discriminate.
Qed.

(** ** Output sampler *)

Lemma indices_spec (n k : Z) : In k (indices n) <-> 0 <= k < n.
Proof.
  unfold indices. rewrite in_map_iff. split.
  - intros (i & <- & Hi). apply in_seq in Hi. lia.
  - intros Hk. exists (Z.to_nat k). split; [lia|]. apply in_seq. lia.
Qed.

Lemma py_in_spec (i : Z) (l : list Z) : py_in i l = true <-> In i l.
Proof.
  unfold py_in. rewrite existsb_exists. split.
  - intros (x & Hx & Heq). apply Z.eqb_eq in Heq. now subst.
  - intros Hin. exists i. split; [exact Hin | apply Z.eqb_refl].
Qed.

Lemma filter_all {A : Type} (f : A -> bool) (l : list A) :
  (forall a, In a l -> f a = true) -> filter f l = l.
Proof.
  induction l as [|a rest IH]; intros Hall; simpl; [reflexivity|].
  rewrite (Hall a) by now left.
  f_equal. apply IH. intros b Hb. apply Hall. now right.
Qed.

(** Without a budget every frame is written. *)
Lemma written_indices_without_budget (n m : Z) :
  m <= 0 ->
  relevant_frames n m = Ret (indices n) /\
  written_indices n m = Ret (indices n).
Proof.
  intros Hm.
  assert (Hrel : relevant_frames n m = Ret (indices n)).
  { unfold relevant_frames.
    replace (m >? 0) with false; [reflexivity|].
    symmetry. rewrite Z.gtb_ltb. apply Z.ltb_ge. exact Hm. }
  split; [exact Hrel|].
  unfold written_indices. rewrite Hrel. simpl. f_equal.
  apply filter_all. intros k Hk. apply py_in_spec. exact Hk.
Qed.

(** The three concrete samples of the design document. *)
Example sample_100_10 :
  relevant_frames 100 10 = Ret [0; 10; 20; 30; 40; 50; 60; 70; 80; 90] /\
  written_indices 100 10 = Ret [0; 10; 20; 30; 40; 50; 60; 70; 80; 90].
Proof.
  split; vm_compute; reflexivity.
Qed.

Example sample_5_0 : written_indices 5 0 = Ret [0; 1; 2; 3; 4].
Proof.
  vm_compute. reflexivity.
Qed.

Example sample_3_10 :
  relevant_frames 3 10 = Ret [0; 0; 0; 0; 1; 1; 1; 2; 2; 2] /\
  written_indices 3 10 = Ret [0; 1; 2].
Proof.
  split; vm_compute; reflexivity.
Qed.

Example sample_50_10 :
  written_indices 50 10 = Ret [0; 5; 10; 15; 20; 25; 30; 35; 40; 45].
Proof.
  vm_compute. reflexivity.
Qed.

(** C5 on 15 frames with a budget of 13.  The stride 15/13 is rounded
    down to 1.1538461538461537, the quotient 15/stride comes out above
    13, so [np.arange] yields 14 values and 14 distinct frames are
    written: the thirteen of floor(i * 15/13), i in 0..12, and frame 14,
    where the design document has at most 13. *)
Theorem C5_budget_13_writes_14_frames :
  relevant_frames 15 13
    = Ret [0; 1; 2; 3; 4; 5; 6; 8; 9; 10; 11; 12; 13; 14] /\
  written_indices 15 13
    = Ret [0; 1; 2; 3; 4; 5; 6; 8; 9; 10; 11; 12; 13; 14] /\
  spec_sample 15 13 = [0; 1; 2; 3; 4; 5; 6; 8; 9; 10; 11; 12; 13] /\
  (exists written,
      written_indices 15 13 = Ret written /\
      NoDup written /\ Z.of_nat (length written) = 14 /\
      ~ Z.of_nat (length written) <= 13).
Proof.
  split; [vm_compute; reflexivity|].
  split; [vm_compute; reflexivity|].
  split; [vm_compute; reflexivity|].
  exists [0; 1; 2; 3; 4; 5; 6; 8; 9; 10; 11; 12; 13; 14].
  split; [vm_compute; reflexivity|].
  split; [|split; [reflexivity | simpl; lia]].
  repeat (constructor; [simpl; intuition discriminate|]). constructor.
Qed.

(** ** Command line *)

(** The three argument checks of [main] end the run with status 1 and
    their message. *)
Lemma main_missing_arguments (w : World) (argv0 : string) :
  (length (argv w) < 4)%nat ->
  nth_error (argv w) 0 = Some argv0 ->
  main w = Raise (SystemExit (Some (usage argv0))) /\
  exit_status (main w) = 1 /\
  stderr_output (main w) = Message (usage argv0).
Proof.
  intros Hlen H0.
  assert (Hmain : main w = Raise (SystemExit (Some (usage argv0)))).
  { unfold main. apply Nat.ltb_lt in Hlen. rewrite Hlen.
    unfold py_index. rewrite H0. reflexivity. }
  rewrite Hmain. repeat split.
Qed.

Lemma main_video_not_a_file (w : World) (a0 a1 a2 a3 : string)
  (more : list string) (n : Z) :
  argv w = a0 :: a1 :: a2 :: a3 :: more ->
  int_of_string w a1 = Some n ->
  isfile w (abspath w a2) = false ->
  exit_status (main w) = 1 /\
  stderr_output (main w)
  = Message "The specified <path_to_video> argument is not a valid filename".
Proof.
  intros Hargv Hint Hfile. unfold main. rewrite Hargv. simpl.
  rewrite Hint. simpl. rewrite Hfile. simpl. split; reflexivity.
Qed.

Lemma main_output_not_a_directory (w : World) (a0 a1 a2 a3 : string)
  (more : list string) (n : Z) :
  argv w = a0 :: a1 :: a2 :: a3 :: more ->
  int_of_string w a1 = Some n ->
  isfile w (abspath w a2) = true ->
  isdir w (abspath w a3) = false ->
  exit_status (main w) = 1 /\
  stderr_output (main w)
  = Message "The specified <output_path> argument is not a valid directory".
Proof.
  intros Hargv Hint Hfile Hdir. unfold main. rewrite Hargv. simpl.
  rewrite Hint. simpl. rewrite Hfile, Hdir. simpl. split; reflexivity.
Qed.

(** C6 on a run whose first frame has no face: [detect_face] calls
    [sys.exit()] without an argument, so the process ends with status 0
    and prints nothing, where the design document has a non-zero status
    and a descriptive message. *)
Theorem C6_no_face_exits_with_status_zero :
  main no_face_world = Raise (SystemExit None) /\
  exit_status (main no_face_world) = 0 /\
  stderr_output (main no_face_world) = Silent.
Proof.
  repeat split.
Qed.

(** ** Flow rescaling in single precision *)

Lemma pow2_pos (e : Z) : (0 < pow2 e)%Q.
Proof.
  unfold pow2. destruct (0 <=? e) eqn:He.
  - apply Z.leb_le in He. change 0%Q with (inject_Z 0).
    rewrite <- Zlt_Qlt. apply Z.pow_pos_nonneg; lia.
  - apply Z.leb_gt in He. apply Qinv_lt_0_compat.
    change 0%Q with (inject_Z 0). rewrite <- Zlt_Qlt.
    apply Z.pow_pos_nonneg; lia.
Qed.

(** [SFabs] takes the absolute value of the value. *)
Lemma f32_value_abs (v : float32) (q : Q) :
  f32_value v = Some q ->
  exists q', f32_value (SFabs v) = Some q' /\ (q' == Qabs q)%Q.
Proof.
  destruct v as [s|s| |s m e]; simpl; intros Hq; try discriminate;
    injection Hq as <-.
  - exists 0%Q. split; reflexivity.
  - exists (1 * inject_Z (Zpos m) * pow2 e)%Q. split; [reflexivity|].
    assert (Hpos : (0 < inject_Z (Zpos m) * pow2 e)%Q).
    { apply Qmult_lt_0_compat; [|apply pow2_pos].
      change 0%Q with (inject_Z 0). rewrite <- Zlt_Qlt. lia. }
    destruct s.
    + rewrite Qabs_neg by lra. ring.
    + rewrite Qabs_pos by lra. reflexivity.
Qed.

Lemma int_or_indefinite_small (r : Z) :
  0 <= r < 2 ^ 31 -> int_or_indefinite r = r.
Proof.
  intros Hr. unfold int_or_indefinite, INT_MIN.
  replace (- 2 ^ 31 <=? r) with true by (symmetry; apply Z.leb_le; lia).
  replace (r <? 2 ^ 31) with true by (symmetry; apply Z.ltb_lt; lia).
  reflexivity.
Qed.

Lemma int_or_indefinite_large (r : Z) :
  2 ^ 31 <= r -> int_or_indefinite r = INT_MIN.
Proof.
  intros Hr. unfold int_or_indefinite.
  replace (r <? 2 ^ 31) with false by (symmetry; apply Z.ltb_ge; lia).
  now rewrite andb_false_r.
Qed.

Lemma cvRound_abs_nonneg (q : Q) : 0 <= cvRound (Qabs q).
Proof.
  apply cvRound_ge_Z. change (inject_Z 0) with 0%Q. apply Qabs_nonneg.
Qed.

(** The stored value in terms of the single-precision value of
    [src * alpha + beta]. *)
Lemma convertScaleAbs1_of_value (alpha beta src : float32) (q : Q) :
  f32_value (scale_shift alpha beta src) = Some q ->
  convertScaleAbs1 alpha beta src
  = saturate_uchar (int_or_indefinite (cvRound (Qabs q))).
Proof.
  intros Hq. unfold convertScaleAbs1, cvRound_f32.
  destruct (f32_value_abs _ _ Hq) as (q' & Hq' & E).
  rewrite Hq'. now rewrite (cvRound_comp _ _ E).
Qed.

Lemma sixteenths_spec (k : Z) : -512 <= k <= 512 -> In k sixteenths.
Proof.
  intros Hk. unfold sixteenths. apply in_map_iff.
  exists (k + 512). split; [lia|]. apply indices_spec. lia.
Qed.

Lemma sixteenths_stored_as_exact : forallb stored_as_exact sixteenths = true.
Proof.
  vm_compute. reflexivity.
Qed.

(** C3 (as amended).  With v the single-precision value of
    raw * scale_factor + 128, for the scale factor 128 / SCALE_FLOW the
    script passes: the stored 8-bit value always lies in 0..255; when
    |v| rounds to less than 2^31 it is clip(|v|, 0, 255) rounded half to
    even, which is clip(v, 0, 255) rounded whenever v is not negative;
    when |v| rounds to 2^31 or more it is 0; zero displacement is stored
    as the midpoint 128; and for displacements of whole sixteenths of a
    pixel between -32 and 32 pixels the stored value is the rounded
    clip(|raw * scale_factor + 128|, 0, 255) of exact arithmetic. *)
Theorem C3_flow_display_is_clipped_magnitude :
  (forall raw, 0 <= flow_display raw <= 255) /\
  (forall raw q,
      f32_value (flow_value raw) = Some q ->
      (cvRound (Qabs q) < 2 ^ 31 ->
       flow_display raw = cvRound (spec_clip (Qabs q) 0 255) /\
       ((0 <= q)%Q -> flow_display raw = cvRound (spec_clip q 0 255))) /\
      (2 ^ 31 <= cvRound (Qabs q) -> flow_display raw = 0)) /\
  (forall s, flow_display (S754_zero s) = 128) /\
  (forall k,
      -512 <= k <= 512 ->
      flow_display (f32_of_dyadic k (-4))
      = cvRound (spec_clip (Qabs ((k # 16) * inject_Z flow_scale + 128)) 0 255) /\
      ((0 <= (k # 16) * inject_Z flow_scale + 128)%Q ->
       flow_display (f32_of_dyadic k (-4))
       = spec_display (inject_Z flow_scale) (k # 16))).
Proof.
  split; [|split; [|split]].
  - intros raw. apply saturate_uchar_range.
  - intros raw q Hq.
    unfold flow_display.
    rewrite (convertScaleAbs1_of_value _ _ _ q Hq).
    pose proof (cvRound_abs_nonneg q) as Hnonneg.
    split.
    + intros Hfits. rewrite int_or_indefinite_small by lia.
      rewrite saturate_round_is_round_clip. split; [reflexivity|].
      intros Hpos. apply cvRound_comp, clip_comp, Qabs_pos. exact Hpos.
    + intros Hlarge. rewrite int_or_indefinite_large by exact Hlarge.
      reflexivity.
  - intros [|]; vm_compute; reflexivity.
  - intros k Hk.
    pose proof sixteenths_stored_as_exact as Hall.
    rewrite forallb_forall in Hall.
    specialize (Hall k (sixteenths_spec k Hk)).
    unfold stored_as_exact in Hall. apply Z.eqb_eq in Hall.
    split; [exact Hall|].
    intros Hpos. rewrite Hall. unfold spec_display.
    apply cvRound_comp, clip_comp, Qabs_pos. exact Hpos.
Qed.

(** C3 as stated fails: a displacement of -20 pixels is stored as 112,
    where clip(raw * scale_factor + 128, 0, 255) is 0, both for the scale
    factor the script passes and for 128/10. *)
Lemma C3_negative_displacement_not_clipped :
  (exists q, f32_value (f32_of_Z (-20)) = Some q /\ (q == -20 # 1)%Q) /\
  flow_display (f32_of_Z (-20)) = 112 /\
  spec_display (inject_Z flow_scale) (-20 # 1) = 0 /\
  spec_display (128 # 10) (-20 # 1) = 0 /\
  ~ (forall raw q, f32_value raw = Some q ->
       flow_display raw = spec_display (inject_Z flow_scale) q) /\
  ~ (forall raw q, f32_value raw = Some q ->
       flow_display raw = spec_display (128 # 10) q).
Proof.
  split; [eexists; split; [reflexivity | vm_compute; reflexivity]|].
  split; [vm_compute; reflexivity|].
  split; [vm_compute; reflexivity|].
  split; [vm_compute; reflexivity|].
  split; intros Hclaim;
    specialize (Hclaim (f32_of_Z (-20)) _ eq_refl);
    vm_compute in Hclaim; discriminate Hclaim.
Qed.

(** The scale factor the script passes is the integer 12, so that a
    displacement of ten pixels either way is stored as 248 and 8. *)
Example flow_display_at_ten :
  flow_scale = 12 /\
  flow_display (f32_of_Z 10) = 248 /\ flow_display (f32_of_Z (-10)) = 8.
Proof.
  repeat split; vm_compute; reflexivity.
Qed.

(** Single precision shows: the float nearest to 1/24 pixel gives
    exactly 128.5 and is stored as 128, and a displacement of 2e8
    pixels overflows the 32-bit rounding and is stored as 0. *)
Example flow_display_single_precision :
  flow_value (SFdiv 24 128 (f32_of_Z 1) (f32_of_Z 24))
    = f32_of_dyadic 257 (-1) /\
  flow_display (SFdiv 24 128 (f32_of_Z 1) (f32_of_Z 24)) = 128 /\
  flow_display (f32_of_Z 200000000) = 0.
Proof.
  repeat split; vm_compute; reflexivity.
Qed.

(** * Further properties of the code *)

(** ** remember_face and the detection loop *)

(** X1.  [remember_face] is first-fit: either the first cluster whose
    window strictly contains the centre of the rectangle is replaced by
    its merge with the rectangle and every other cluster is left as it
    is, or no cluster contains the centre and a new cluster of count 0
    is appended at the end. *)
Theorem X1_remember_face_first_fit (face : Rect) (known : list Cluster) :
  (exists before c after,
      known = before ++ c :: after /\
      (forall d, In d before -> point_in_rect (center_point face) d = false) /\
      point_in_rect (center_point face) c = true /\
      remember_face face known = before ++ merge_face c face :: after)
  \/
  ((forall d, In d known -> point_in_rect (center_point face) d = false) /\
   remember_face face known = known ++ [new_face face]).
Proof.
  induction known as [|head tail IH]; simpl.
  - right. split; [intros d []|reflexivity].
  - destruct (point_in_rect (center_point face) head) eqn:Hhead.
    + left. exists [], head, tail. simpl. repeat split; auto.
      intros d [].
    + destruct IH as [(before & c & after & Hk & Hb & Hc & Hr) | (Hnone & Hr)].
      * left. exists (head :: before), c, after. simpl.
        rewrite Hk at 1. repeat split; auto.
        -- intros d [<- | Hd]; [exact Hhead | exact (Hb d Hd)].
        -- now rewrite Hr.
      * right. split.
        -- intros d [<- | Hd]; [exact Hhead | exact (Hnone d Hd)].
        -- now rewrite Hr.
Qed.

Lemma total_count_app (k1 k2 : list Cluster) :
  total_count (k1 ++ k2) = total_count k1 + total_count k2.
Proof.
  unfold total_count. induction k1 as [|c k1 IH]; simpl; [reflexivity|].
  rewrite IH. lia.
Qed.

Lemma remember_face_accounts (face : Rect) (known : list Cluster) :
  total_count (remember_face face known)
    + Z.of_nat (length (remember_face face known))
  = total_count known + Z.of_nat (length known) + 1.
Proof.
  induction known as [|head tail IH]; simpl.
  - destruct face as [[[x y] w] h]. reflexivity.
  - destruct (point_in_rect (center_point face) head).
    + destruct face as [[[x y] w] h]. unfold total_count. simpl. lia.
    + unfold total_count in *. simpl. simpl in IH. lia.
Qed.

(** X2.  Every detection is accounted for once: after any sequence of
    detections the counts of all clusters plus the number of clusters
    have grown by the number of detections.  Starting from no cluster,
    counts plus clusters equal the detections seen. *)
Theorem X2_detections_accounted (faces : list Rect) (known : list Cluster) :
  total_count (remember_faces faces known)
    + Z.of_nat (length (remember_faces faces known))
  = total_count known + Z.of_nat (length known) + Z.of_nat (length faces).
Proof.
  unfold remember_faces. revert known.
  induction faces as [|face rest IH]; intros known; cbn [fold_left length].
  - lia.
  - rewrite IH, remember_face_accounts. lia.
Qed.

Lemma merge_face_in_frame (W H : Z) (c : Cluster) (face : Rect) :
  cluster_in_frame W H c -> rect_in_frame W H face ->
  cluster_in_frame W H (merge_face c face).
Proof.
  unfold cluster_in_frame, rect_in_frame.
  destruct face as [[[x y] w] h]. simpl. lia.
Qed.

Lemma remember_face_in_frame (W H : Z) (face : Rect) (known : list Cluster) :
  rect_in_frame W H face ->
  Forall (cluster_in_frame W H) known ->
  Forall (cluster_in_frame W H) (remember_face face known).
Proof.
  intros Hface. induction known as [|head tail IH]; intros Hknown; simpl.
  - constructor; [|constructor].
    unfold cluster_in_frame, rect_in_frame in *.
    destruct face as [[[x y] w] h]. simpl. lia.
  - inversion Hknown as [|? ? Hhead Htail]; subst.
    destruct (point_in_rect (center_point face) head).
    + constructor; [|exact Htail]. now apply merge_face_in_frame.
    + constructor; [exact Hhead | apply IH; exact Htail].
Qed.

Lemma remember_faces_in_frame (W H : Z) (faces : list Rect) :
  forall known,
    Forall (rect_in_frame W H) faces ->
    Forall (cluster_in_frame W H) known ->
    Forall (cluster_in_frame W H) (remember_faces faces known).
Proof.
  unfold remember_faces.
  induction faces as [|face rest IH]; intros known Hfaces Hknown; simpl.
  - exact Hknown.
  - inversion Hfaces; subst. apply IH; [assumption|].
    now apply remember_face_in_frame.
Qed.

(** X3.  Windows stay inside the frame: when every detected rectangle
    lies inside a frame of W columns and H rows, so does the window
    (minX, minY, maxWidth, maxHeight) of every cluster, although minX is
    the least x and maxWidth the greatest width of different
    rectangles. *)
Theorem X3_clusters_stay_in_frame
  (W H : Z) (faces : list Rect) (known : list Cluster) :
  Forall (rect_in_frame W H) faces ->
  Forall (cluster_in_frame W H) known ->
  Forall (cluster_in_frame W H) (remember_faces faces known).
Proof.
  apply remember_faces_in_frame.
Qed.

Lemma X3_two_faces_witness :
  Forall (rect_in_frame 100 80) [(60, 10, 40, 40); (50, 5, 30, 50)] /\
  Forall (cluster_in_frame 100 80) [] /\
  Forall (cluster_in_frame 100 80)
         (remember_faces [(60, 10, 40, 40); (50, 5, 30, 50)] []).
Proof.
  assert (Hfaces : Forall (rect_in_frame 100 80)
                          [(60, 10, 40, 40); (50, 5, 30, 50)]).
  { repeat constructor; simpl; lia. }
  split; [exact Hfaces|]. split; [constructor|].
  apply (X3_clusters_stay_in_frame 100 80
           [(60, 10, 40, 40); (50, 5, 30, 50)] []); [exact Hfaces|constructor].
Defined.

Lemma detection_loop_in_frame (cascade : GrayFrame -> list Rect) (W H : Z)
  (frames : list GrayFrame) :
  (forall frame face, In face (cascade frame) -> rect_in_frame W H face) ->
  forall i known known',
    Forall (cluster_in_frame W H) known ->
    detection_loop cascade i frames known = Ret known' ->
    Forall (cluster_in_frame W H) known'.
Proof.
  intros Hdet. induction frames as [|frame rest IH];
    intros i known known' Hknown Hrun; simpl in Hrun.
  - injection Hrun as <-. exact Hknown.
  - destruct (i mod 10 =? 0); simpl in Hrun.
    + unfold detect_face in Hrun.
      destruct (cascade frame) as [|face faces] eqn:Hc; [discriminate|].
      simpl in Hrun. eapply IH; [|exact Hrun].
      assert (Hfaces : Forall (rect_in_frame W H) (face :: faces)).
      { apply Forall_forall. intros r Hr. apply (Hdet frame). now rewrite Hc. }
      inversion Hfaces; subst.
      apply remember_faces_in_frame; [assumption|].
      apply remember_face_in_frame; assumption.
    + eapply IH; [exact Hknown | exact Hrun].
Qed.

Lemma max_from_In {A : Type} (key : A -> Z) (l : list A) :
  forall best, max_from key best l = best \/ In (max_from key best l) l.
Proof.
  induction l as [|a rest IH]; intros best; simpl; [now left|].
  destruct (key a >? key best).
  - destruct (IH a) as [-> | Hin]; auto.
  - destruct (IH best) as [-> | Hin]; auto.
Qed.

Lemma py_max_In {A : Type} (key : A -> Z) (l : list A) (a : A) :
  py_max key l = Ret a -> In a l.
Proof.
  destruct l as [|x rest]; [discriminate|].
  simpl. intros Hmax. injection Hmax as <-.
  destruct (max_from_In key rest x) as [-> | Hin]; auto.
Qed.

(** A window inside the frame is cropped as it is, without clamping. *)
Lemma crop_and_mask_exact
  (covers : Z * Z -> Z * Z -> Z -> Z -> bool)
  {P : Type} {pixel : Pixel P} (W H : Z) (frame : Frame P) (region : Cluster) :
  frame_of_size W H frame ->
  cluster_in_frame W H region ->
  frame_of_size (maxWidth region) (maxHeight region)
                (crop_and_mask covers frame region).
Proof.
  intros [Hheight Hrows] (Hx & Hy & Hw & Hh & Hxw & Hyh).
  unfold crop_and_mask. cbv zeta.
  set (cropped := crop frame (minY region) (minY region + maxHeight region)
                       (minX region) (minX region + maxWidth region)).
  pose proof (apply_mask_shape covers cropped (maxWidth region)
                (maxHeight region)) as Hshape.
  split.
  - rewrite frame_height_shape, Hshape, <- frame_height_shape.
    unfold cropped. rewrite crop_height, Hheight. unfold slice_bound.
    destruct (minY region + maxHeight region <? 0) eqn:E1; [lia|].
    destruct (minY region <? 0) eqn:E2; [lia|]. lia.
  - intros row Hin.
    assert (Hlen : In (length row) (shape cropped)).
    { rewrite <- Hshape. unfold shape. apply in_map. exact Hin. }
    unfold shape in Hlen. apply in_map_iff in Hlen as (src & Hsrc & Hin').
    rewrite <- Hsrc. unfold cropped, crop in Hin'.
    apply in_map_iff in Hin' as (full & <- & Hfull).
    apply py_slice_incl in Hfull.
    rewrite py_slice_length, (Hrows full Hfull). unfold slice_bound.
    destruct (minX region + maxWidth region <? 0) eqn:E1; [lia|].
    destruct (minX region <? 0) eqn:E2; [lia|]. lia.
Qed.

(** X4.  With a detector whose rectangles lie inside the W-by-H frames
    of the clip, the canonical region lies inside the frame, so
    [face_pass] never clamps: it returns as many gray and colour frames
    as it was given, each of exactly maxHeight rows and maxWidth
    columns of the canonical region. *)
Theorem X4_face_pass_crops_to_region_size
  (cascade : GrayFrame -> list Rect)
  (covers : Z * Z -> Z * Z -> Z -> Z -> bool) (W H : Z)
  (framesGray : list GrayFrame) (framesBGR : list BGRFrame)
  (region : Cluster) :
  (forall frame face, In face (cascade frame) -> rect_in_frame W H face) ->
  Forall (frame_of_size W H) framesGray ->
  Forall (frame_of_size W H) framesBGR ->
  most_significant_face cascade framesGray = Ret region ->
  cluster_in_frame W H region /\
  exists gray bgr,
    face_pass cascade covers framesGray framesBGR = Ret (gray, bgr) /\
    length gray = length framesGray /\
    length bgr = length framesBGR /\
    Forall (frame_of_size (maxWidth region) (maxHeight region)) gray /\
    Forall (frame_of_size (maxWidth region) (maxHeight region)) bgr.
Proof.
  intros Hdet Hgray Hbgr Hregion.
  assert (Hin : cluster_in_frame W H region).
  { unfold most_significant_face in Hregion.
    destruct (known_faces_of cascade framesGray) as [known|e] eqn:Hknown;
      [|discriminate].
    simpl in Hregion. apply py_max_In in Hregion.
    unfold known_faces_of in Hknown.
    pose proof (detection_loop_in_frame cascade W H framesGray Hdet 0 []
                  known (Forall_nil _) Hknown) as Hall.
    rewrite Forall_forall in Hall. exact (Hall region Hregion). }
  split; [exact Hin|].
  unfold face_pass. rewrite Hregion. simpl.
  eexists. eexists. split; [reflexivity|].
  rewrite !length_map. repeat split.
  - apply Forall_forall. intros out Hout.
    apply in_map_iff in Hout as (f & <- & Hf).
    rewrite Forall_forall in Hgray.
    apply (crop_and_mask_exact covers W H); auto.
  - apply Forall_forall. intros out Hout.
    apply in_map_iff in Hout as (f & <- & Hf).
    rewrite Forall_forall in Hbgr.
    apply (crop_and_mask_exact covers W H); auto.
Qed.

Lemma example_frame_size : frame_of_size 6 4 example_frame.
Proof.
  split; [reflexivity|].
  intros row Hin. simpl in Hin.
  destruct Hin as [<- | [<- | [<- | [<- | []]]]]; reflexivity.
Qed.

Lemma example_bgr_frame_size : frame_of_size 6 4 example_bgr_frame.
Proof.
  split; [reflexivity|].
  intros row Hin. vm_compute in Hin.
  destruct Hin as [<- | [<- | [<- | [<- | []]]]]; reflexivity.
Qed.

Lemma fixed_detector_in_frame (frame : GrayFrame) (face : Rect) :
  In face (fixed_detector frame) -> rect_in_frame 6 4 face.
Proof.
  intros [<- | []]. simpl. lia.
Qed.

Lemma X4_one_frame_witness :
  (forall frame face, In face (fixed_detector frame) -> rect_in_frame 6 4 face) /\
  Forall (frame_of_size 6 4) [example_frame] /\
  Forall (frame_of_size 6 4) [example_bgr_frame] /\
  most_significant_face fixed_detector [example_frame]
    = Ret (mkCluster 2 1 3 2 0) /\
  cluster_in_frame 6 4 (mkCluster 2 1 3 2 0) /\
  exists gray bgr,
    face_pass fixed_detector ellipse_equation [example_frame]
              [example_bgr_frame] = Ret (gray, bgr) /\
    length gray = length [example_frame] /\
    length bgr = length [example_bgr_frame] /\
    Forall (frame_of_size (maxWidth (mkCluster 2 1 3 2 0))
                          (maxHeight (mkCluster 2 1 3 2 0))) gray /\
    Forall (frame_of_size (maxWidth (mkCluster 2 1 3 2 0))
                          (maxHeight (mkCluster 2 1 3 2 0))) bgr.
Proof.
  split; [exact fixed_detector_in_frame|].
  split; [constructor; [exact example_frame_size | constructor]|].
  split; [constructor; [exact example_bgr_frame_size | constructor]|].
  split; [reflexivity|].
  apply (X4_face_pass_crops_to_region_size fixed_detector ellipse_equation
           6 4 [example_frame] [example_bgr_frame] (mkCluster 2 1 3 2 0)).
  - exact fixed_detector_in_frame.
  - constructor; [exact example_frame_size | constructor].
  - constructor; [exact example_bgr_frame_size | constructor].
  - reflexivity.
Defined.

Lemma same_rect_merges_once (x y w h n : Z) :
  2 <= w -> 2 <= h ->
  remember_face (x, y, w, h) [mkCluster x y w h n]
  = [mkCluster x y w h (n + 1)].
Proof.
  intros Hw Hh. cbn [remember_face].
  assert (Hin : point_in_rect (center_point (x, y, w, h))
                              (mkCluster x y w h n) = true).
  { unfold point_in_rect, center_point. simpl.
    assert (1 <= w / 2) by (apply Z.div_le_lower_bound; lia).
    assert (1 <= h / 2) by (apply Z.div_le_lower_bound; lia).
    assert (w / 2 < w) by (apply Z.div_lt; lia).
    assert (h / 2 < h) by (apply Z.div_lt; lia).
    rewrite !andb_true_iff, !Z.ltb_lt. lia. }
  rewrite Hin. unfold merge_face.
  cbn [minX minY maxWidth maxHeight count].
  rewrite !Z.min_id, !Z.max_id. reflexivity.
Qed.

Lemma same_rect_merges (x y w h : Z) (k : nat) :
  2 <= w -> 2 <= h ->
  forall n,
    remember_faces (repeat (x, y, w, h) k) [mkCluster x y w h n]
    = [mkCluster x y w h (n + Z.of_nat k)].
Proof.
  intros Hw Hh. unfold remember_faces.
  induction k as [|k IH]; intros n; cbn [repeat fold_left].
  - now rewrite Z.add_0_r.
  - rewrite same_rect_merges_once, IH by assumption. do 2 f_equal. lia.
Qed.

(** X5.  A rectangle at least two pixels wide and high that is detected
    k+1 times in a row gives a single cluster with exactly that
    rectangle as its window and count k: the first detection creates the
    cluster with count 0 and each repetition falls strictly inside it. *)
Theorem X5_repeated_rectangle_single_cluster (x y w h : Z) (k : nat) :
  2 <= w -> 2 <= h ->
  remember_faces (repeat (x, y, w, h) (S k)) []
  = [mkCluster x y w h (Z.of_nat k)].
Proof.
  intros Hw Hh.
  change (remember_faces (repeat (x, y, w, h) (S k)) [])
    with (remember_faces (repeat (x, y, w, h) k) [mkCluster x y w h 0]).
  rewrite same_rect_merges by assumption. reflexivity.
Qed.

Lemma X5_seven_detections_witness :
  2 <= 30 /\ 2 <= 45 /\
  remember_faces (repeat (12, 8, 30, 45) (S 6)) []
  = [mkCluster 12 8 30 45 (Z.of_nat 6)].
Proof.
  split; [lia|]. split; [lia|].
  apply (X5_repeated_rectangle_single_cluster 12 8 30 45 6); lia.
Defined.

Lemma detection_loop_visited_only (cascade : GrayFrame -> list Rect)
  (frames : list GrayFrame) :
  forall frames' i known,
    length frames = length frames' ->
    (forall j, (i + Z.of_nat j) mod 10 = 0 ->
               nth_error frames j = nth_error frames' j) ->
    detection_loop cascade i frames known
    = detection_loop cascade i frames' known.
Proof.
  induction frames as [|frame rest IH]; intros [|frame' rest'] i known Hlen Hsame;
    try discriminate; [reflexivity|].
  simpl in Hlen. injection Hlen as Hlen.
  assert (Hrest : forall known0,
             detection_loop cascade (i + 1) rest known0
             = detection_loop cascade (i + 1) rest' known0).
  { intros known0. apply IH; [exact Hlen|].
    intros j Hj. apply (Hsame (S j)).
    replace (i + Z.of_nat (S j)) with (i + 1 + Z.of_nat j) by lia. exact Hj. }
  cbn [detection_loop].
  destruct (i mod 10 =? 0) eqn:Hi; simpl.
  - apply Z.eqb_eq in Hi.
    assert (Hframe : Some frame = Some frame').
    { apply (Hsame 0%nat). now rewrite Z.add_0_r. }
    injection Hframe as <-.
    destruct (detect_face cascade frame); simpl; [apply Hrest | reflexivity].
  - apply Hrest.
Qed.

(** X6.  Only every tenth frame reaches the detector: two clips of the
    same length that agree on the frames at indices 0, 10, 20, ... have
    the same clusters and the same canonical region (or the same
    failure), whatever their other frames are. *)
Theorem X6_only_visited_frames_matter
  (cascade : GrayFrame -> list Rect) (frames frames' : list GrayFrame) :
  length frames = length frames' ->
  (forall i, visited i -> nth_error frames i = nth_error frames' i) ->
  known_faces_of cascade frames = known_faces_of cascade frames' /\
  most_significant_face cascade frames = most_significant_face cascade frames'.
Proof.
  intros Hlen Hsame.
  assert (Hk : known_faces_of cascade frames = known_faces_of cascade frames').
  { unfold known_faces_of. apply detection_loop_visited_only; [exact Hlen|].
    intros j Hj. apply Hsame. exact Hj. }
  split; [exact Hk|]. unfold most_significant_face. now rewrite Hk.
Qed.

Lemma X6_second_frame_witness :
  length [example_frame; [[1]]] = length [example_frame; [[2; 3]]] /\
  (forall i, visited i ->
     nth_error [example_frame; [[1]]] i
     = nth_error [example_frame; [[2; 3]]] i) /\
  known_faces_of fixed_detector [example_frame; [[1]]]
  = known_faces_of fixed_detector [example_frame; [[2; 3]]] /\
  most_significant_face fixed_detector [example_frame; [[1]]]
  = most_significant_face fixed_detector [example_frame; [[2; 3]]].
Proof.
  assert (Hsame : forall i, visited i ->
            nth_error [example_frame; [[1]]] i
            = nth_error [example_frame; [[2; 3]]] i).
  { intros [|[|i]] Hv; try reflexivity.
    unfold visited in Hv. simpl in Hv. discriminate Hv. }
  split; [reflexivity|]. split; [exact Hsame|].
  apply (X6_only_visited_frames_matter fixed_detector
           [example_frame; [[1]]] [example_frame; [[2; 3]]]).
  - reflexivity.
  - exact Hsame.
Defined.

(** ** Flow passes *)

Lemma unzip_flows_cons {A : Type} (flow : A * A) (flows : list (A * A)) :
  unzip_flows (flow :: flows)
  = [map fst (flow :: flows); map snd (flow :: flows)].
Proof.
  reflexivity.
Qed.

(** X7.  On a non-empty clip the static pass returns exactly two
    streams, horizontal and vertical, each as long as the clip, and the
    entries at index i are the two images of the flow from the first
    frame to frame i; at index 0 the first frame is compared with
    itself. *)
Theorem X7_flow_pass_static_streams
  (solver : GrayFrame -> GrayFrame -> list (list float32) * list (list float32))
  (framesGray : list GrayFrame) (first : GrayFrame) :
  nth_error framesGray 0 = Some first ->
  exists xs ys,
    flow_pass_static solver framesGray = Ret [xs; ys] /\
    length xs = length framesGray /\
    length ys = length framesGray /\
    nth_error xs 0 = Some (fst (calculateFlow solver first first)) /\
    forall i frame,
      nth_error framesGray i = Some frame ->
      nth_error xs i = Some (fst (calculateFlow solver first frame)) /\
      nth_error ys i = Some (snd (calculateFlow solver first frame)).
Proof.
  destruct framesGray as [|f0 rest]; [discriminate|].
  intros Hfirst. injection Hfirst as ->.
  unfold flow_pass_static. cbn [map]. rewrite unzip_flows_cons.
  eexists. eexists. split; [reflexivity|].
  change (calculateFlow solver first first
            :: map (fun f => calculateFlow solver first f) rest)
    with (map (fun f => calculateFlow solver first f) (first :: rest)).
  rewrite !length_map.
  split; [reflexivity|]. split; [reflexivity|]. split; [reflexivity|].
  intros i frame Hi.
  rewrite !map_map, !nth_error_map, Hi. split; reflexivity.
Qed.

Lemma X7_two_frames_witness :
  nth_error [[[5]]; [[7]]] 0 = Some [[5]] /\
  exists xs ys,
    flow_pass_static difference_solver [[[5]]; [[7]]] = Ret [xs; ys] /\
    length xs = length [[[5]]; [[7]]] /\
    length ys = length [[[5]]; [[7]]] /\
    nth_error xs 0 = Some (fst (calculateFlow difference_solver [[5]] [[5]])) /\
    forall i frame,
      nth_error [[[5]]; [[7]]] i = Some frame ->
      nth_error xs i = Some (fst (calculateFlow difference_solver [[5]] frame)) /\
      nth_error ys i = Some (snd (calculateFlow difference_solver [[5]] frame)).
Proof.
  split; [reflexivity|].
  apply (X7_flow_pass_static_streams difference_solver [[[5]]; [[7]]] [[5]]).
  reflexivity.
Defined.

(** X8.  On a non-empty clip the continuous pass also returns two
    streams as long as the clip; the entries at index i are the two
    images of the flow from the sum, modulo 256 per pixel, of the first
    frame and frame i to frame i. *)
Theorem X8_flow_pass_continuous_streams
  (solver : GrayFrame -> GrayFrame -> list (list float32) * list (list float32))
  (framesGray : list GrayFrame) (first : GrayFrame) :
  nth_error framesGray 0 = Some first ->
  exists xs ys,
    flow_pass_continuous solver framesGray = Ret [xs; ys] /\
    length xs = length framesGray /\
    length ys = length framesGray /\
    forall i frame,
      nth_error framesGray i = Some frame ->
      nth_error xs i
      = Some (fst (calculateFlow solver (np_add first frame) frame)) /\
      nth_error ys i
      = Some (snd (calculateFlow solver (np_add first frame) frame)).
Proof.
  destruct framesGray as [|f0 rest]; [discriminate|].
  intros Hfirst. injection Hfirst as ->.
  unfold flow_pass_continuous, continuous_pairs. cbn [bind].
  set (frames := first :: rest).
  assert (Hne : exists p ps,
             map (fun p => calculateFlow solver (fst p) (snd p))
                 (combine (map (np_add first) frames) frames) = p :: ps).
  { unfold frames. cbn [map combine]. eauto. }
  destruct Hne as (p & ps & Hps).
  rewrite Hps, unzip_flows_cons, <- Hps.
  eexists. eexists. split; [reflexivity|].
  rewrite !length_map, length_combine, length_map, Nat.min_id.
  split; [reflexivity|]. split; [reflexivity|].
  intros i frame Hi.
  rewrite !map_map, !nth_error_map.
  rewrite (combine_map_nth_error (np_add first) frames i frame Hi).
  split; reflexivity.
Qed.

Lemma X8_two_frames_witness :
  nth_error [[[5]]; [[7]]] 0 = Some [[5]] /\
  exists xs ys,
    flow_pass_continuous difference_solver [[[5]]; [[7]]] = Ret [xs; ys] /\
    length xs = length [[[5]]; [[7]]] /\
    length ys = length [[[5]]; [[7]]] /\
    forall i frame,
      nth_error [[[5]]; [[7]]] i = Some frame ->
      nth_error xs i
      = Some (fst (calculateFlow difference_solver (np_add [[5]] frame) frame)) /\
      nth_error ys i
      = Some (snd (calculateFlow difference_solver (np_add [[5]] frame) frame)).
Proof.
  split; [reflexivity|].
  apply (X8_flow_pass_continuous_streams difference_solver
           [[[5]]; [[7]]] [[5]]).
  reflexivity.
Defined.

(** ** Flow rescaling, continued *)

Lemma flow_display_of_value (raw : float32) (q : Q) :
  f32_value (flow_value raw) = Some q ->
  flow_display raw = saturate_uchar (int_or_indefinite (cvRound (Qabs q))).
Proof.
  intros Hq. unfold flow_display.
  apply convertScaleAbs1_of_value. exact Hq.
Qed.

(** X9.  The stored flow value loses the direction: two displacements
    whose single-precision values of raw * scale + 128 are finite and
    opposite are stored as the same 8-bit value. *)
Theorem X9_flow_display_loses_sign (a b : float32) (qa qb : Q) :
  f32_value (flow_value a) = Some qa ->
  f32_value (flow_value b) = Some qb ->
  (qb == - qa)%Q ->
  flow_display a = flow_display b.
Proof.
  intros Ha Hb E.
  rewrite (flow_display_of_value a qa Ha), (flow_display_of_value b qb Hb).
  do 2 f_equal. apply cvRound_comp.
  rewrite E. symmetry. apply Qabs_opp.
Qed.

Lemma X9_mirrored_pair_witness :
  f32_value (flow_value (f32_of_Z 10)) = Some (16252928 # 65536) /\
  f32_value (flow_value mirror_of_ten) = Some (-16252928 # 65536) /\
  (-16252928 # 65536 == - (16252928 # 65536))%Q /\
  flow_display (f32_of_Z 10) = flow_display mirror_of_ten.
Proof.
  assert (Ha : f32_value (flow_value (f32_of_Z 10)) = Some (16252928 # 65536))
    by (vm_compute; reflexivity).
  assert (Hb : f32_value (flow_value mirror_of_ten) = Some (-16252928 # 65536))
    by (vm_compute; reflexivity).
  split; [exact Ha|]. split; [exact Hb|]. split; [reflexivity|].
  apply (X9_flow_display_loses_sign
           (f32_of_Z 10) mirror_of_ten (16252928 # 65536) (-16252928 # 65536) Ha Hb).
  reflexivity.
Defined.

Lemma cvRound_mono (x y : Q) : (x <= y)%Q -> cvRound x <= cvRound y.
Proof.
  intros Hxy.
  destruct (Z_le_gt_dec (cvRound x) (cvRound y)) as [Hle | Hgt]; [exact Hle|].
  exfalso.
  destruct (cvRound_near x) as [Hx _].
  destruct (cvRound_near y) as [_ Hy].
  assert (Hstep : (inject_Z (cvRound y) + 1 <= inject_Z (cvRound x))%Q).
  { change 1%Q with (inject_Z 1). rewrite <- inject_Z_plus, <- Zle_Qle. lia. }
  assert (E : (x == y)%Q) by (apply Qle_antisym; lra).
  apply cvRound_comp in E. lia.
Qed.

Lemma saturate_uchar_mono (u v : Z) :
  u <= v -> saturate_uchar u <= saturate_uchar v.
Proof.
  unfold saturate_uchar. intros Huv.
  destruct (u <? 0) eqn:E1, (v <? 0) eqn:E2,
           (255 <? u) eqn:E3, (255 <? v) eqn:E4;
    rewrite ?Z.ltb_lt, ?Z.ltb_ge in *; lia.
Qed.

(** X10.  Below the 32-bit rounding limit the stored flow value grows
    with the magnitude of the single-precision value of
    raw * scale + 128: when that magnitude rounds to less than 2^31, a
    value of smaller magnitude is never stored as a greater one. *)
Theorem X10_flow_display_monotone_in_magnitude (a b : float32) (qa qb : Q) :
  f32_value (flow_value a) = Some qa ->
  f32_value (flow_value b) = Some qb ->
  (Qabs qa <= Qabs qb)%Q ->
  cvRound (Qabs qb) < 2 ^ 31 ->
  flow_display a <= flow_display b.
Proof.
  intros Ha Hb Hab Hlimit.
  rewrite (flow_display_of_value a qa Ha), (flow_display_of_value b qb Hb).
  pose proof (cvRound_mono _ _ Hab) as Hmono.
  pose proof (cvRound_abs_nonneg qa) as Hpos.
  rewrite !int_or_indefinite_small by lia.
  apply saturate_uchar_mono. exact Hmono.
Qed.

Lemma X10_one_and_minus_thirty_witness :
  f32_value (flow_value (f32_of_Z 1)) = Some (9175040 # 65536) /\
  f32_value (flow_value (f32_of_Z (-30))) = Some (-15204352 # 65536) /\
  (Qabs (9175040 # 65536) <= Qabs (-15204352 # 65536))%Q /\
  cvRound (Qabs (-15204352 # 65536)) < 2 ^ 31 /\
  flow_display (f32_of_Z 1) <= flow_display (f32_of_Z (-30)).
Proof.
  assert (Ha : f32_value (flow_value (f32_of_Z 1)) = Some (9175040 # 65536))
    by (vm_compute; reflexivity).
  assert (Hb : f32_value (flow_value (f32_of_Z (-30))) = Some (-15204352 # 65536))
    by (vm_compute; reflexivity).
  assert (Hab : (Qabs (9175040 # 65536) <= Qabs (-15204352 # 65536))%Q)
    by (vm_compute; discriminate).
  assert (Hlimit : cvRound (Qabs (-15204352 # 65536)) < 2 ^ 31)
    by (vm_compute; reflexivity).
  split; [exact Ha|]. split; [exact Hb|]. split; [exact Hab|].
  split; [exact Hlimit|].
  apply (X10_flow_display_monotone_in_magnitude
           (f32_of_Z 1) (f32_of_Z (-30)) (9175040 # 65536) (-15204352 # 65536)
           Ha Hb Hab Hlimit).
Defined.

(** Past the limit the order is lost: a displacement of 2e8 pixels is
    stored as 0, below the 140 stored for one pixel. *)
Example flow_display_not_monotone_past_the_limit :
  flow_display (f32_of_Z 1) = 140 /\
  flow_display (f32_of_Z 200000000) = 0.
Proof.
  split; vm_compute; reflexivity.
Qed.

(** X11.  Both images of [calculateFlow] have the shapes of the
    solver's two displacement fields and hold only values in 0..255. *)
Theorem X11_calculateFlow_images_are_8_bit
  (solver : GrayFrame -> GrayFrame -> list (list float32) * list (list float32))
  (frame1 frame2 : GrayFrame) :
  let flow := solver frame1 frame2 in
  let images := calculateFlow solver frame1 frame2 in
  map (@length Z) (fst images) = map (@length float32) (fst flow) /\
  map (@length Z) (snd images) = map (@length float32) (snd flow) /\
  (forall row p, In row (fst images) -> In p row -> 0 <= p <= 255) /\
  (forall row p, In row (snd images) -> In p row -> 0 <= p <= 255).
Proof.
  cbv zeta. unfold calculateFlow, convertScaleAbs. cbn [fst snd].
  assert (Hshape : forall field : list (list float32),
             map (@length Z)
                 (map (map (convertScaleAbs1 (f32_of_Z flow_scale) (f32_of_Z 128))) field)
             = map (@length float32) field).
  { intros field. rewrite map_map. apply map_ext. intros row.
    apply length_map. }
  assert (Hrange : forall (field : list (list float32)) row p,
             In row (map (map (convertScaleAbs1 (f32_of_Z flow_scale) (f32_of_Z 128))) field) ->
             In p row -> 0 <= p <= 255).
  { intros field row p Hrow Hp.
    apply in_map_iff in Hrow as (src & <- & _).
    apply in_map_iff in Hp as (q & <- & _).
    apply saturate_uchar_range. }
  repeat split; try apply Hshape; eapply Hrange; eassumption.
Qed.

(** ** Output sampler, continued *)

Lemma indices_from_sorted (k : nat) :
  forall a, StronglySorted Z.lt (map Z.of_nat (seq a k)).
Proof.
  induction k as [|k IH]; intros a; simpl; constructor.
  - apply IH.
  - apply Forall_forall. intros z Hz.
    apply in_map_iff in Hz as (i & <- & Hi). apply in_seq in Hi. lia.
Qed.

Lemma filter_sorted (f : Z -> bool) (l : list Z) :
  StronglySorted Z.lt l -> StronglySorted Z.lt (filter f l).
Proof.
  induction 1 as [|a l Hsorted IH Hall]; simpl; [constructor|].
  destruct (f a); [|exact IH].
  constructor; [exact IH|].
  apply Forall_forall. intros z Hz. apply filter_In in Hz as [Hz _].
  rewrite Forall_forall in Hall. exact (Hall z Hz).
Qed.

Lemma sorted_NoDup (l : list Z) : StronglySorted Z.lt l -> NoDup l.
Proof.
  induction 1 as [|a l Hsorted IH Hall]; constructor; [|exact IH].
  intros Hin. rewrite Forall_forall in Hall. specialize (Hall a Hin). lia.
Qed.

(** X12.  Whatever [np.arange] yields, also repeated or out-of-range
    values, [save_to_disk] writes each file under the given stream name,
    in strictly increasing index order, never the same index twice and
    never an index outside 0 .. len(frames)-1. *)
Theorem X12_save_to_disk_writes_each_index_once
  {F : Type} (frames : list F) (name : string) (max_frame_count : Z)
  (files : list (string * Z)) :
  save_to_disk frames name max_frame_count = Ret files ->
  map fst files = repeat name (length files) /\
  StronglySorted Z.lt (map snd files) /\
  NoDup (map snd files) /\
  (forall i, In i (map snd files) -> 0 <= i < Z.of_nat (length frames)) /\
  (length files <= length frames)%nat.
Proof.
  unfold save_to_disk, written_indices. intros Hsave.
  destruct (relevant_frames (Z.of_nat (length frames)) max_frame_count)
    as [relevant|e]; [|discriminate].
  simpl in Hsave. injection Hsave as <-.
  set (written := filter (fun i => py_in i relevant)
                         (indices (Z.of_nat (length frames)))).
  assert (Hsorted : StronglySorted Z.lt written).
  { apply filter_sorted. apply indices_from_sorted. }
  rewrite !map_map. cbn [fst snd]. rewrite map_id, length_map.
  split; [|split; [exact Hsorted | split; [apply sorted_NoDup; exact Hsorted|]]].
  - clear Hsorted. induction written as [|i rest IH]; simpl; [reflexivity|].
    now rewrite IH.
  - split.
    + intros i Hi. apply filter_In in Hi as [Hi _].
      apply indices_spec in Hi. exact Hi.
    + unfold written.
      eapply Nat.le_trans; [apply filter_length_le|].
      unfold indices. rewrite length_map, length_seq. lia.
Qed.

Lemma X12_three_frames_witness :
  save_to_disk [example_frame; example_frame; example_frame] "frame-gray" 10
    = Ret [("frame-gray"%string, 0); ("frame-gray"%string, 1);
           ("frame-gray"%string, 2)] /\
  map fst [("frame-gray"%string, 0); ("frame-gray"%string, 1);
           ("frame-gray"%string, 2)]
    = repeat "frame-gray"%string 3 /\
  StronglySorted Z.lt [0; 1; 2] /\
  NoDup [0; 1; 2] /\
  (forall i, In i [0; 1; 2] -> 0 <= i < 3) /\
  (3 <= 3)%nat.
Proof.
  assert (Hsave :
    save_to_disk [example_frame; example_frame; example_frame] "frame-gray" 10
    = Ret [("frame-gray"%string, 0); ("frame-gray"%string, 1);
           ("frame-gray"%string, 2)])
    by (vm_compute; reflexivity).
  split; [exact Hsave|].
  exact (X12_save_to_disk_writes_each_index_once
           [example_frame; example_frame; example_frame] "frame-gray" 10
           _ Hsave).
Defined.

(** X13.  A budget of zero or less switches the sampling off: every
    frame is written, once and in order. *)
Theorem X13_save_to_disk_without_budget
  {F : Type} (frames : list F) (name : string) (max_frame_count : Z) :
  max_frame_count <= 0 ->
  save_to_disk frames name max_frame_count
  = Ret (map (fun i => (name, i)) (indices (Z.of_nat (length frames)))).
Proof.
  intros Hm. unfold save_to_disk.
  destruct (written_indices_without_budget
              (Z.of_nat (length frames)) max_frame_count Hm) as [_ Hw].
  rewrite Hw. reflexivity.
Qed.

Lemma X13_negative_budget_witness :
  -3 <= 0 /\
  save_to_disk [example_frame; example_frame] "frame-gray" (-3)
  = Ret (map (fun i => ("frame-gray"%string, i))
             (indices (Z.of_nat (length [example_frame; example_frame])))).
Proof.
  split; [lia|].
  apply (X13_save_to_disk_without_budget
           [example_frame; example_frame] "frame-gray" (-3)). lia.
Defined.

(** ** Command line, continued *)

(** X14.  With fewer than three arguments after the script name, [main]
    ends the run at once with the usage line built from the script name
    as its message and status 1, before it looks at any path. *)
Theorem X14_main_usage_on_missing_arguments (w : World) (argv0 : string) :
  (length (argv w) < 4)%nat ->
  nth_error (argv w) 0 = Some argv0 ->
  main w = Raise (SystemExit (Some (usage argv0))) /\
  exit_status (main w) = 1 /\
  stderr_output (main w) = Message (usage argv0).
Proof.
  intros Hlen H0. apply main_missing_arguments; assumption.
Qed.

Lemma X14_one_argument_witness :
  (length (argv (example_world ["extract_frames.py"; "10"]%string None
                               fixed_detector)) < 4)%nat /\
  nth_error (argv (example_world ["extract_frames.py"; "10"]%string None
                                 fixed_detector)) 0
    = Some "extract_frames.py"%string /\
  main (example_world ["extract_frames.py"; "10"]%string None fixed_detector)
    = Raise (SystemExit (Some (usage "extract_frames.py"))) /\
  exit_status
    (main (example_world ["extract_frames.py"; "10"]%string None
                         fixed_detector)) = 1 /\
  stderr_output
    (main (example_world ["extract_frames.py"; "10"]%string None
                         fixed_detector))
    = Message (usage "extract_frames.py").
Proof.
  split; [simpl; lia|]. split; [reflexivity|].
  apply (X14_main_usage_on_missing_arguments
           (example_world ["extract_frames.py"; "10"]%string None
                          fixed_detector) "extract_frames.py").
  - simpl; lia.
  - reflexivity.
Defined.

(** X15.  With a numeric budget and a video path that is not an
    existing file, [main] ends the run with its message about
    <path_to_video> and status 1, whatever the output path is. *)
Theorem X15_main_video_path_not_a_file (w : World) (a0 a1 a2 a3 : string)
  (more : list string) (n : Z) :
  argv w = a0 :: a1 :: a2 :: a3 :: more ->
  int_of_string w a1 = Some n ->
  isfile w (abspath w a2) = false ->
  exit_status (main w) = 1 /\
  stderr_output (main w)
  = Message "The specified <path_to_video> argument is not a valid filename".
Proof.
  intros Hargv Hint Hfile.
  exact (main_video_not_a_file w a0 a1 a2 a3 more n Hargv Hint Hfile).
Qed.

Lemma X15_missing_video_witness :
  argv (example_world ["x.py"; "10"; "none.avi"; "out"]%string None
                      fixed_detector)
    = "x.py"%string :: "10"%string :: "none.avi"%string :: "out"%string :: [] /\
  int_of_string (example_world ["x.py"; "10"; "none.avi"; "out"]%string None
                               fixed_detector) "10" = Some 10 /\
  isfile (example_world ["x.py"; "10"; "none.avi"; "out"]%string None
                        fixed_detector)
         (abspath (example_world ["x.py"; "10"; "none.avi"; "out"]%string None
                                 fixed_detector) "none.avi") = false /\
  exit_status
    (main (example_world ["x.py"; "10"; "none.avi"; "out"]%string None
                         fixed_detector)) = 1 /\
  stderr_output
    (main (example_world ["x.py"; "10"; "none.avi"; "out"]%string None
                         fixed_detector))
  = Message "The specified <path_to_video> argument is not a valid filename".
Proof.
  split; [reflexivity|]. split; [reflexivity|]. split; [reflexivity|].
  apply (X15_main_video_path_not_a_file
           (example_world ["x.py"; "10"; "none.avi"; "out"]%string None
                          fixed_detector)
           "x.py" "10" "none.avi" "out" [] 10); reflexivity.
Defined.

(** X16.  With a numeric budget and an existing video file, an output
    path that is not an existing directory ends the run with the message
    about <output_path> and status 1, before the video is opened. *)
Theorem X16_main_output_path_not_a_directory (w : World)
  (a0 a1 a2 a3 : string) (more : list string) (n : Z) :
  argv w = a0 :: a1 :: a2 :: a3 :: more ->
  int_of_string w a1 = Some n ->
  isfile w (abspath w a2) = true ->
  isdir w (abspath w a3) = false ->
  exit_status (main w) = 1 /\
  stderr_output (main w)
  = Message "The specified <output_path> argument is not a valid directory".
Proof.
  intros Hargv Hint Hfile Hdir.
  exact (main_output_not_a_directory w a0 a1 a2 a3 more n
           Hargv Hint Hfile Hdir).
Qed.

Lemma X16_missing_directory_witness :
  argv (example_world ["x.py"; "10"; "clip.avi"; "tmp"]%string None
                      fixed_detector)
    = "x.py"%string :: "10"%string :: "clip.avi"%string :: "tmp"%string :: [] /\
  int_of_string (example_world ["x.py"; "10"; "clip.avi"; "tmp"]%string None
                               fixed_detector) "10" = Some 10 /\
  isfile (example_world ["x.py"; "10"; "clip.avi"; "tmp"]%string None
                        fixed_detector)
         (abspath (example_world ["x.py"; "10"; "clip.avi"; "tmp"]%string None
                                 fixed_detector) "clip.avi") = true /\
  isdir (example_world ["x.py"; "10"; "clip.avi"; "tmp"]%string None
                       fixed_detector)
        (abspath (example_world ["x.py"; "10"; "clip.avi"; "tmp"]%string None
                                fixed_detector) "tmp") = false /\
  exit_status
    (main (example_world ["x.py"; "10"; "clip.avi"; "tmp"]%string None
                         fixed_detector)) = 1 /\
  stderr_output
    (main (example_world ["x.py"; "10"; "clip.avi"; "tmp"]%string None
                         fixed_detector))
  = Message "The specified <output_path> argument is not a valid directory".
Proof.
  split; [reflexivity|]. split; [reflexivity|].
  split; [reflexivity|]. split; [reflexivity|].
  apply (X16_main_output_path_not_a_directory
           (example_world ["x.py"; "10"; "clip.avi"; "tmp"]%string None
                          fixed_detector)
           "x.py" "10" "clip.avi" "tmp" [] 10); reflexivity.
Defined.

(** X17.  The frame budget is converted before the paths are looked at:
    with four or more arguments of which the first is not an integer,
    the run ends with an uncaught ValueError (status 1, a traceback),
    whether or not the video and the output directory exist. *)
Theorem X17_main_budget_not_a_number (w : World) (a0 a1 a2 a3 : string)
  (more : list string) :
  argv w = a0 :: a1 :: a2 :: a3 :: more ->
  int_of_string w a1 = None ->
  main w = Raise ValueError /\
  exit_status (main w) = 1 /\
  stderr_output (main w) = Traceback ValueError.
Proof.
  intros Hargv Hint.
  assert (Hmain : main w = Raise ValueError).
  { unfold main. rewrite Hargv. simpl. rewrite Hint. reflexivity. }
  rewrite Hmain. repeat split.
Qed.

Lemma X17_budget_word_witness :
  argv (example_world ["x.py"; "ten"; "none.avi"; "tmp"]%string None
                      fixed_detector)
    = "x.py"%string :: "ten"%string :: "none.avi"%string :: "tmp"%string :: [] /\
  int_of_string (example_world ["x.py"; "ten"; "none.avi"; "tmp"]%string None
                               fixed_detector) "ten" = None /\
  main (example_world ["x.py"; "ten"; "none.avi"; "tmp"]%string None
                      fixed_detector) = Raise ValueError /\
  exit_status
    (main (example_world ["x.py"; "ten"; "none.avi"; "tmp"]%string None
                         fixed_detector)) = 1 /\
  stderr_output
    (main (example_world ["x.py"; "ten"; "none.avi"; "tmp"]%string None
                         fixed_detector)) = Traceback ValueError.
Proof.
  split; [reflexivity|]. split; [reflexivity|].
  apply (X17_main_budget_not_a_number
           (example_world ["x.py"; "ten"; "none.avi"; "tmp"]%string None
                          fixed_detector)
           "x.py" "ten" "none.avi" "tmp" []); reflexivity.
Defined.

(** The run up to [read_video], for well-formed and existing arguments. *)
Lemma main_after_checks (w : World) (a0 a1 a2 a3 : string)
  (more : list string) (n : Z) :
  argv w = a0 :: a1 :: a2 :: a3 :: more ->
  int_of_string w a1 = Some n ->
  isfile w (abspath w a2) = true ->
  isdir w (abspath w a3) = true ->
  main w =
    (frames <- read_video w (abspath w a2) ;;
     cropped <- face_pass (detectMultiScale w) (ellipse_covers w)
                          (fst frames) (snd frames) ;;
     _ <- flow_pass_static (calcOpticalFlowFarneback w) (fst cropped) ;;
     static_flows <- flow_pass_static (calcOpticalFlowFarneback w)
                                      (fst cropped) ;;
     out1 <- save_to_disk (snd cropped) "frame-bgr" n ;;
     out2 <- save_to_disk (fst cropped) "frame-gray" n ;;
     flow_x <- py_index static_flows 0 ;;
     out3 <- save_to_disk flow_x "flow-x" n ;;
     flow_y <- py_index static_flows 1 ;;
     out4 <- save_to_disk flow_y "flow-y" n ;;
     Ret (out1 ++ out2 ++ out3 ++ out4)).
Proof.
  intros Hargv Hint Hfile Hdir. unfold main. rewrite Hargv.
  cbn [length Nat.ltb Nat.leb py_index nth_error bind].
  rewrite Hint. cbn [bind]. rewrite Hfile, Hdir. reflexivity.
Qed.

(** X18.  A video file that exists but cannot be opened ends the run
    with the message "Error opening video file." and status 1. *)
Theorem X18_main_video_cannot_be_opened (w : World) (a0 a1 a2 a3 : string)
  (more : list string) (n : Z) :
  argv w = a0 :: a1 :: a2 :: a3 :: more ->
  int_of_string w a1 = Some n ->
  isfile w (abspath w a2) = true ->
  isdir w (abspath w a3) = true ->
  VideoCapture w (abspath w a2) = None ->
  exit_status (main w) = 1 /\
  stderr_output (main w) = Message "Error opening video file.".
Proof.
  intros Hargv Hint Hfile Hdir Hvideo.
  rewrite (main_after_checks w a0 a1 a2 a3 more n Hargv Hint Hfile Hdir).
  unfold read_video. rewrite Hvideo. split; reflexivity.
Qed.

Lemma X18_unreadable_video_witness :
  argv (example_world ["x.py"; "10"; "clip.avi"; "out"]%string None
                      fixed_detector)
    = "x.py"%string :: "10"%string :: "clip.avi"%string :: "out"%string :: [] /\
  exit_status
    (main (example_world ["x.py"; "10"; "clip.avi"; "out"]%string None
                         fixed_detector)) = 1 /\
  stderr_output
    (main (example_world ["x.py"; "10"; "clip.avi"; "out"]%string None
                         fixed_detector))
  = Message "Error opening video file.".
Proof.
  split; [reflexivity|].
  apply (X18_main_video_cannot_be_opened
           (example_world ["x.py"; "10"; "clip.avi"; "out"]%string None
                          fixed_detector)
           "x.py" "10" "clip.avi" "out" [] 10); reflexivity.
Defined.

(** X19.  A video that opens but delivers no frame ends the run with an
    uncaught ValueError, raised by [max] over the empty cluster list:
    status 1 and a traceback, not one of the script's messages. *)
Theorem X19_main_video_without_frames (w : World) (a0 a1 a2 a3 : string)
  (more : list string) (n : Z) :
  argv w = a0 :: a1 :: a2 :: a3 :: more ->
  int_of_string w a1 = Some n ->
  isfile w (abspath w a2) = true ->
  isdir w (abspath w a3) = true ->
  VideoCapture w (abspath w a2) = Some [] ->
  main w = Raise ValueError /\
  exit_status (main w) = 1 /\
  stderr_output (main w) = Traceback ValueError.
Proof.
  intros Hargv Hint Hfile Hdir Hvideo.
  rewrite (main_after_checks w a0 a1 a2 a3 more n Hargv Hint Hfile Hdir).
  unfold read_video. rewrite Hvideo. repeat split.
Qed.

Lemma X19_empty_video_witness :
  argv (example_world ["x.py"; "10"; "clip.avi"; "out"]%string (Some [])
                      fixed_detector)
    = "x.py"%string :: "10"%string :: "clip.avi"%string :: "out"%string :: [] /\
  main (example_world ["x.py"; "10"; "clip.avi"; "out"]%string (Some [])
                      fixed_detector) = Raise ValueError /\
  exit_status
    (main (example_world ["x.py"; "10"; "clip.avi"; "out"]%string (Some [])
                         fixed_detector)) = 1 /\
  stderr_output
    (main (example_world ["x.py"; "10"; "clip.avi"; "out"]%string (Some [])
                         fixed_detector)) = Traceback ValueError.
Proof.
  split; [reflexivity|].
  apply (X19_main_video_without_frames
           (example_world ["x.py"; "10"; "clip.avi"; "out"]%string (Some [])
                          fixed_detector)
           "x.py" "10" "clip.avi" "out" [] 10); reflexivity.
Defined.

Lemma flow_pass_static_lengths
  (solver : GrayFrame -> GrayFrame -> list (list float32) * list (list float32))
  (frames : list GrayFrame) :
  frames <> [] ->
  exists xs ys,
    flow_pass_static solver frames = Ret [xs; ys] /\
    length xs = length frames /\ length ys = length frames.
Proof.
  destruct frames as [|first rest]; [intros Hne; now elim Hne|].
  intros _. unfold flow_pass_static. cbn [map]. rewrite unzip_flows_cons.
  eexists. eexists. split; [reflexivity|].
  cbn [map length]. rewrite !length_map. split; reflexivity.
Qed.

Lemma save_to_disk_by_length {F : Type} (frames : list F) (name : string)
  (n : Z) (len : nat) (written : list Z) :
  length frames = len ->
  written_indices (Z.of_nat len) n = Ret written ->
  save_to_disk frames name n = Ret (map (fun i => (name, i)) written).
Proof.
  intros Hlen Hw. unfold save_to_disk. rewrite Hlen, Hw. reflexivity.
Qed.

(** X20.  When the arguments are well-formed, the video opens and the
    tracker finds its canonical region, [main] writes four streams in
    the order frame-bgr, frame-gray, flow-x, flow-y, and all four
    carry the same frame indices, those the sampler selects for the
    number of frames read. *)
Theorem X20_main_writes_four_aligned_streams (w : World)
  (a0 a1 a2 a3 : string) (more : list string) (n : Z)
  (video : list BGRFrame) (region : Cluster) (written : list Z) :
  argv w = a0 :: a1 :: a2 :: a3 :: more ->
  int_of_string w a1 = Some n ->
  isfile w (abspath w a2) = true ->
  isdir w (abspath w a3) = true ->
  VideoCapture w (abspath w a2) = Some video ->
  most_significant_face (detectMultiScale w)
    (map fst (map (preprocessMMI w) video)) = Ret region ->
  written_indices (Z.of_nat (length video)) n = Ret written ->
  main w
  = Ret (map (fun i => ("frame-bgr"%string, i)) written
         ++ map (fun i => ("frame-gray"%string, i)) written
         ++ map (fun i => ("flow-x"%string, i)) written
         ++ map (fun i => ("flow-y"%string, i)) written).
Proof.
  intros Hargv Hint Hfile Hdir Hvideo Hregion Hwritten.
  rewrite (main_after_checks w a0 a1 a2 a3 more n Hargv Hint Hfile Hdir).
  unfold read_video. rewrite Hvideo. cbn [bind fst snd].
  unfold face_pass. rewrite Hregion. cbn [bind fst snd].
  set (gray := map (fun f => crop_and_mask (ellipse_covers w) f region)
                   (map fst (map (preprocessMMI w) video))).
  set (bgr := map (fun f => crop_and_mask (ellipse_covers w) f region)
                  (map snd (map (preprocessMMI w) video))).
  assert (Hgray : length gray = length video)
    by (unfold gray; now rewrite !length_map).
  assert (Hbgr : length bgr = length video)
    by (unfold bgr; now rewrite !length_map).
  assert (Hne : gray <> []).
  { intros Hnil. rewrite Hnil in Hgray. symmetry in Hgray.
    apply length_zero_iff_nil in Hgray. subst video.
    vm_compute in Hregion. discriminate Hregion. }
  destruct (flow_pass_static_lengths (calcOpticalFlowFarneback w) gray Hne)
    as (xs & ys & Hflow & Hxs & Hys).
  rewrite Hflow. cbn [bind py_index nth_error].
  rewrite (save_to_disk_by_length (F := BGRFrame) bgr "frame-bgr" n
             (length video) written Hbgr Hwritten).
  rewrite (save_to_disk_by_length (F := GrayFrame) gray "frame-gray" n
             (length video) written Hgray Hwritten).
  rewrite (save_to_disk_by_length (F := GrayFrame) xs "flow-x" n
             (length video) written (eq_trans Hxs Hgray) Hwritten).
  rewrite (save_to_disk_by_length (F := GrayFrame) ys "flow-y" n
             (length video) written (eq_trans Hys Hgray) Hwritten).
  reflexivity.
Qed.

Lemma X20_two_frame_video_witness :
  argv (example_world ["x.py"; "0"; "clip.avi"; "out"]%string
          (Some [example_bgr_frame; example_bgr_frame]) fixed_detector)
    = "x.py"%string :: "0"%string :: "clip.avi"%string :: "out"%string :: [] /\
  most_significant_face fixed_detector
    (map fst (map (preprocessMMI
                     (example_world ["x.py"; "0"; "clip.avi"; "out"]%string
                        (Some [example_bgr_frame; example_bgr_frame])
                        fixed_detector))
                  [example_bgr_frame; example_bgr_frame]))
    = Ret (mkCluster 2 1 3 2 0) /\
  written_indices (Z.of_nat (length [example_bgr_frame; example_bgr_frame])) 0
    = Ret [0; 1] /\
  main (example_world ["x.py"; "0"; "clip.avi"; "out"]%string
          (Some [example_bgr_frame; example_bgr_frame]) fixed_detector)
  = Ret (map (fun i => ("frame-bgr"%string, i)) [0; 1]
         ++ map (fun i => ("frame-gray"%string, i)) [0; 1]
         ++ map (fun i => ("flow-x"%string, i)) [0; 1]
         ++ map (fun i => ("flow-y"%string, i)) [0; 1]).
Proof.
  split; [reflexivity|]. split; [reflexivity|].
  split; [vm_compute; reflexivity|].
  apply (X20_main_writes_four_aligned_streams
           (example_world ["x.py"; "0"; "clip.avi"; "out"]%string
              (Some [example_bgr_frame; example_bgr_frame]) fixed_detector)
           "x.py" "0" "clip.avi" "out" [] 0
           [example_bgr_frame; example_bgr_frame] (mkCluster 2 1 3 2 0)
           [0; 1]); reflexivity.
Defined.

(** ** optical_flow.py *)

(** X21.  [preprocessMMI] keeps at most the first 576 rows and, of each
    row, the columns 360..719: the result has min(576, height) rows of
    at most 360 pixels, and an image no wider than 360 columns loses
    every pixel. *)
Theorem X21_preprocessMMI_window (image : BGRFrame) :
  frame_height (OpticalFlow.preprocessMMI image)
    = Z.min 576 (frame_height image) /\
  (forall row, In row (OpticalFlow.preprocessMMI image) ->
     Z.of_nat (length row) <= 360) /\
  ((forall src, In src image -> Z.of_nat (length src) <= 360) ->
   forall row, In row (OpticalFlow.preprocessMMI image) -> row = []).
Proof.
  unfold OpticalFlow.preprocessMMI.
  assert (Hrow : forall row, In row (crop image 0 576 360 720) ->
            exists src, In src image /\
              Z.of_nat (length row)
              = Z.max 0 (Z.min 720 (Z.of_nat (length src))
                         - Z.min 360 (Z.of_nat (length src)))).
  { intros row Hin. unfold crop in Hin.
    apply in_map_iff in Hin as (src & <- & Hsrc).
    apply py_slice_incl in Hsrc. exists src. split; [exact Hsrc|].
    rewrite py_slice_length. unfold slice_bound. simpl. reflexivity. }
  split; [|split].
  - rewrite crop_height. unfold slice_bound. simpl.
    assert (0 <= frame_height image) by (unfold frame_height; lia). lia.
  - intros row Hin. destruct (Hrow row Hin) as (src & _ & Hlen). lia.
  - intros Hnarrow row Hin. destruct (Hrow row Hin) as (src & Hsrc & Hlen).
    specialize (Hnarrow src Hsrc).
    apply length_zero_iff_nil. lia.
Qed.

Lemma face_loop_window (detect : BGRFrame -> list Rect)
  (frames : list BGRFrame) :
  forall state window,
    OpticalFlow.face_loop detect state frames = Ret window ->
    OpticalFlow.images window
      = OpticalFlow.images state ++ map OpticalFlow.preprocessMMI frames /\
    OpticalFlow.minX window <= OpticalFlow.minX state /\
    OpticalFlow.minY window <= OpticalFlow.minY state /\
    OpticalFlow.maxWidth state <= OpticalFlow.maxWidth window /\
    OpticalFlow.maxHeight state <= OpticalFlow.maxHeight window /\
    forall img, In img frames ->
      exists x y w h others,
        detect (OpticalFlow.preprocessMMI img) = (x, y, w, h) :: others /\
        OpticalFlow.minX window <= x /\ OpticalFlow.minY window <= y /\
        w <= OpticalFlow.maxWidth window /\ h <= OpticalFlow.maxHeight window.
Proof.
  induction frames as [|img rest IH]; intros state window Hrun; simpl in Hrun.
  - injection Hrun as <-. rewrite app_nil_r.
    repeat split; try lia. intros img [].
  - unfold OpticalFlow.face_step, OpticalFlow.detect_face in Hrun.
    destruct (detect (OpticalFlow.preprocessMMI img))
      as [|[[[x y] w] h] others] eqn:Hdet; [discriminate|].
    simpl in Hrun.
    destruct (IH _ _ Hrun) as (Himgs & Hx & Hy & Hw & Hh & Hall).
    simpl in Himgs, Hx, Hy, Hw, Hh.
    split; [rewrite Himgs, <- app_assoc; reflexivity|].
    repeat split; try lia.
    intros img' [<- | Hin].
    + exists x, y, w, h, others. split; [exact Hdet|]. lia.
    + exact (Hall img' Hin).
Qed.

(** X22.  When [face_pass] gets through its detection loop, it holds one
    preprocessed image per frame read, and its crop window bounds the
    first face of every frame: minX and minY are at most the face's x
    and y (and at most sys.maxint), maxWidth and maxHeight at least its
    width and height (and at least 0). *)
Theorem X22_face_window_bounds_every_face
  (maxint : Z) (detect : BGRFrame -> list Rect)
  (frames : list BGRFrame) (window : OpticalFlow.Window) :
  OpticalFlow.face_window maxint detect (Some frames) = Ret window ->
  OpticalFlow.images window = map OpticalFlow.preprocessMMI frames /\
  OpticalFlow.minX window <= maxint /\
  OpticalFlow.minY window <= maxint /\
  0 <= OpticalFlow.maxWidth window /\
  0 <= OpticalFlow.maxHeight window /\
  forall img, In img frames ->
    exists x y w h others,
      detect (OpticalFlow.preprocessMMI img) = (x, y, w, h) :: others /\
      OpticalFlow.minX window <= x /\ OpticalFlow.minY window <= y /\
      w <= OpticalFlow.maxWidth window /\ h <= OpticalFlow.maxHeight window.
Proof.
  unfold OpticalFlow.face_window. intros Hrun.
  destruct (face_loop_window detect frames _ _ Hrun)
    as (Himgs & Hx & Hy & Hw & Hh & Hall).
  simpl in Himgs, Hx, Hy, Hw, Hh. repeat split; assumption.
Qed.

Lemma X22_two_frames_witness :
  OpticalFlow.face_window 9223372036854775807
    (fun image => match image with
                  | [] => [(4, 5, 30, 40)]
                  | _ => [(2, 9, 50, 35); (0, 0, 1, 1)]
                  end)
    (Some [[]; example_bgr_frame])
  = Ret (OpticalFlow.mkWindow 2 5 50 40 [[]; [[]; []; []; []]]) /\
  OpticalFlow.images (OpticalFlow.mkWindow 2 5 50 40 [[]; [[]; []; []; []]])
    = map OpticalFlow.preprocessMMI [[]; example_bgr_frame] /\
  2 <= 9223372036854775807 /\
  5 <= 9223372036854775807 /\
  0 <= 50 /\ 0 <= 40 /\
  forall img, In img [[]; example_bgr_frame] ->
    exists x y w h others,
      match OpticalFlow.preprocessMMI img with
      | [] => [(4, 5, 30, 40)]
      | _ => [(2, 9, 50, 35); (0, 0, 1, 1)]
      end = (x, y, w, h) :: others /\
      2 <= x /\ 5 <= y /\ w <= 50 /\ h <= 40.
Proof.
  assert (Hrun :
    OpticalFlow.face_window 9223372036854775807
      (fun image => match image with
                    | [] => [(4, 5, 30, 40)]
                    | _ => [(2, 9, 50, 35); (0, 0, 1, 1)]
                    end)
      (Some [[]; example_bgr_frame])
    = Ret (OpticalFlow.mkWindow 2 5 50 40 [[]; [[]; []; []; []]]))
    by reflexivity.
  split; [exact Hrun|].
  exact (X22_face_window_bounds_every_face _ _ _ _ Hrun).
Defined.

(** X27.  [flow_pass] never gets to write opticalhsv.png: whatever the
    images and the keys pressed, it writes nothing at all, or it writes
    opticalfb.png once and then dies with a NameError for [rgb]. *)
Theorem X27_flow_pass_save_key_dies
  (images : Py (list BGRFrame)) (keys : list Z) :
  OpticalFlow.flow_pass images keys = ([], snd (OpticalFlow.flow_pass images keys))
  \/
  OpticalFlow.flow_pass images keys
  = (["opticalfb.png"%string], OpticalFlow.Died (NameError "rgb")).
Proof.
  assert (Hloop : forall imgs ks,
    OpticalFlow.flow_loop imgs ks = ([], snd (OpticalFlow.flow_loop imgs ks))
    \/ OpticalFlow.flow_loop imgs ks
       = (["opticalfb.png"%string], OpticalFlow.Died (NameError "rgb"))).
  { induction imgs as [|img rest IH]; intros ks; simpl; [now left|].
    destruct ks as [|key later]; [now left|].
    destruct (Z.land key 255 =? 27); [now left|].
    destruct (Z.land key 255 =? 115); [now right|]. apply IH. }
  unfold OpticalFlow.flow_pass.
  destruct images as [[|prev rest]|e]; try (now left). apply Hloop.
Qed.

Lemma face_loop_without_face (detect : BGRFrame -> list Rect)
  (frames : list BGRFrame) :
  (exists img, In img frames /\ detect (OpticalFlow.preprocessMMI img) = []) ->
  forall state, OpticalFlow.face_loop detect state frames = Raise IndexError.
Proof.
  induction frames as [|img rest IH]; intros (bad & Hin & Hbad) state.
  - destruct Hin.
  - simpl. unfold OpticalFlow.face_step, OpticalFlow.detect_face.
    destruct (detect (OpticalFlow.preprocessMMI img))
      as [|[[[x y] w] h] others] eqn:Hdet; [reflexivity|].
    simpl. apply IH. destruct Hin as [<- | Hin].
    + congruence.
    + exists bad. auto.
Qed.

(** X28.  The detection loop of [face_pass] runs over the whole video
    before the first image is handed on: one frame anywhere in the video
    without a detected face makes optical_flow's [main] die with an
    IndexError, whatever keys are pressed, with no file written. *)
Theorem X28_optical_flow_main_needs_a_face_on_every_frame
  (maxint : Z) (detect : BGRFrame -> list Rect) (w : World) (keys : list Z)
  (a0 a1 : string) (more : list string) (frames : list BGRFrame) :
  argv w = a0 :: a1 :: more ->
  isfile w (abspath w a1) = true ->
  VideoCapture w (abspath w a1) = Some frames ->
  (exists img, In img frames /\ detect (OpticalFlow.preprocessMMI img) = []) ->
  OpticalFlow.main maxint detect w keys
  = ([], OpticalFlow.Died (Builtin IndexError)).
Proof.
  intros Hargv Hfile Hvideo Hbad.
  unfold OpticalFlow.main. rewrite Hargv. simpl. rewrite Hfile, Hvideo. simpl.
  unfold OpticalFlow.face_pass, OpticalFlow.face_window.
  rewrite (face_loop_without_face detect frames Hbad). reflexivity.
Qed.

Lemma X28_second_frame_witness :
  argv (example_world ["optical_flow.py"; "clip.avi"]%string
          (Some [[]; example_bgr_frame]) fixed_detector)
    = "optical_flow.py"%string :: "clip.avi"%string :: [] /\
  (exists img,
      In img [[]; example_bgr_frame] /\
      match OpticalFlow.preprocessMMI img with
      | [] => [(4, 5, 30, 40)]
      | _ => []
      end = []) /\
  OpticalFlow.main 9223372036854775807
    (fun image => match image with
                  | [] => [(4, 5, 30, 40)]
                  | _ => []
                  end)
    (example_world ["optical_flow.py"; "clip.avi"]%string
       (Some [[]; example_bgr_frame]) fixed_detector)
    [32; 115]
  = ([], OpticalFlow.Died (Builtin IndexError)).
Proof.
  assert (Hbad : exists img,
      In img [[]; example_bgr_frame] /\
      match OpticalFlow.preprocessMMI img with
      | [] => [(4, 5, 30, 40)]
      | _ => []
      end = []).
  { exists example_bgr_frame. split; [right; now left | reflexivity]. }
  split; [reflexivity|]. split; [exact Hbad|].
  apply (X28_optical_flow_main_needs_a_face_on_every_frame
           9223372036854775807
           (fun image => match image with
                         | [] => [(4, 5, 30, 40)]
                         | _ => []
                         end)
           (example_world ["optical_flow.py"; "clip.avi"]%string
              (Some [[]; example_bgr_frame]) fixed_detector)
           [32; 115] "optical_flow.py" "clip.avi" []
           [[]; example_bgr_frame]); try reflexivity.
  exact Hbad.
Defined.

(** ** parse_mmi_xml.py *)

Lemma sd_get_set {V : Type} (d : ParseMMI.SortedDict V) (key : Z) (value : V)
  (other : Z) :
  ParseMMI.sd_get (ParseMMI.sd_set d key value) other
  = if key =? other then Some value else ParseMMI.sd_get d other.
Proof.
  induction d as [|[k v] rest IH]; simpl; [reflexivity|].
  destruct (key <? k) eqn:Hlt; [reflexivity|].
  destruct (key =? k) eqn:Heq; simpl.
  - apply Z.eqb_eq in Heq. subst k.
    destruct (key =? other); reflexivity.
  - rewrite IH. apply Z.eqb_neq in Heq.
    destruct (k =? other) eqn:Hk; [|reflexivity].
    apply Z.eqb_eq in Hk. subst other.
    destruct (key =? k) eqn:Hkey; [apply Z.eqb_eq in Hkey; lia | reflexivity].
Qed.

Section ParseXMLFacts.
Variable int_of : string -> option Z.

Lemma add_marker_holds (code : option string) (d d' : ParseMMI.Metadata)
  (marker : option string) (codes : Z -> list (option string)) :
  holds d codes ->
  ParseMMI.add_marker int_of code d marker = Done d' ->
  holds d' (fun frame =>
              codes frame
              ++ (if marker_names int_of frame marker then [code] else [])).
Proof.
  intros Hd Hadd frame. unfold ParseMMI.add_marker in Hadd.
  destruct marker as [text|]; [|discriminate]. simpl.
  destruct (int_of text) as [n|]; [|discriminate].
  injection Hadd as <-. rewrite sd_get_set.
  destruct (n =? frame) eqn:Hn.
  - apply Z.eqb_eq in Hn. subst frame. rewrite (Hd n).
    destruct (codes n); reflexivity.
  - rewrite app_nil_r. apply Hd.
Qed.

Lemma add_markers_holds (code : option string) (markers : list (option string)) :
  forall d d' codes,
    holds d codes ->
    ParseMMI.add_markers int_of code d markers = Done d' ->
    holds d' (fun frame =>
                codes frame
                ++ map (fun _ => code)
                       (filter (marker_names int_of frame) markers)).
Proof.
  induction markers as [|marker rest IH]; intros d d' codes Hd Hrun;
    simpl in Hrun.
  - injection Hrun as <-. intros frame. simpl. rewrite app_nil_r. apply Hd.
  - destruct (ParseMMI.add_marker int_of code d marker) as [d1|e] eqn:Hadd;
      [|discriminate].
    simpl in Hrun.
    pose proof (IH _ _ _ (add_marker_holds _ _ _ _ _ Hd Hadd) Hrun) as Hd'.
    intros frame. rewrite (Hd' frame). f_equal. simpl.
    destruct (marker_names int_of frame marker); simpl;
      now rewrite <- app_assoc.
Qed.

Lemma add_action_units_holds (aus : list ParseMMI.ActionUnit) :
  forall d d' codes,
    holds d codes ->
    ParseMMI.add_action_units int_of d aus = Done d' ->
    holds d' (fun frame => codes frame ++ marked_codes int_of aus frame).
Proof.
  induction aus as [|au rest IH]; intros d d' codes Hd Hrun; simpl in Hrun.
  - injection Hrun as <-. intros frame. simpl. rewrite app_nil_r. apply Hd.
  - destruct (ParseMMI.add_markers int_of (ParseMMI.Number au) d
                (ParseMMI.Markers au)) as [d1|e] eqn:Hadd; [|discriminate].
    simpl in Hrun.
    pose proof (IH _ _ _ (add_markers_holds _ _ _ _ _ Hd Hadd) Hrun) as Hd'.
    intros frame. rewrite (Hd' frame). f_equal. simpl.
    now rewrite <- app_assoc.
Qed.

Lemma parseXML_holds (aus : list ParseMMI.ActionUnit) (d : ParseMMI.Metadata) :
  ParseMMI.parseXML int_of aus = Done d ->
  holds d (marked_codes int_of aus).
Proof.
  intros Hrun.
  exact (add_action_units_holds aus [] d (fun _ => []) (fun _ => eq_refl) Hrun).
Qed.
End ParseXMLFacts.

(** X23.  The dictionary [parseXML] builds has a key exactly for the
    frames that some marker names, and holds for such a frame the Number
    attributes of the action units marking it, one per marker, in
    document order. *)
Theorem X23_parseXML_groups_codes_by_frame
  (int_of : string -> option Z) (action_units : list ParseMMI.ActionUnit)
  (metadata : ParseMMI.Metadata) :
  ParseMMI.parseXML int_of action_units = Done metadata ->
  forall frame,
    ParseMMI.sd_get metadata frame
    = some_if_any (marked_codes int_of action_units frame).
Proof.
  intros Hrun frame. exact (parseXML_holds int_of action_units metadata Hrun frame).
Qed.

Lemma X23_two_units_witness :
  ParseMMI.parseXML example_int example_action_units
    = Done [(3, [Some "12"%string; Some "25"%string]); (7, [Some "12"%string])] /\
  forall frame,
    ParseMMI.sd_get
      [(3, [Some "12"%string; Some "25"%string]); (7, [Some "12"%string])] frame
    = some_if_any (marked_codes example_int example_action_units frame).
Proof.
  assert (Hrun :
    ParseMMI.parseXML example_int example_action_units
    = Done [(3, [Some "12"%string; Some "25"%string]); (7, [Some "12"%string])])
    by reflexivity.
  split; [exact Hrun|].
  exact (X23_parseXML_groups_codes_by_frame example_int example_action_units
           _ Hrun).
Defined.

Lemma py_in_keys {V : Type} (d : ParseMMI.SortedDict V) (i : Z) :
  py_in i (ParseMMI.sd_keys d) = true <-> ParseMMI.sd_get d i <> None.
Proof.
  rewrite py_in_spec. unfold ParseMMI.sd_keys.
  induction d as [|[k v] rest IH]; simpl.
  - split; [intros [] | intros H; now elim H].
  - destruct (k =? i) eqn:Hk.
    + apply Z.eqb_eq in Hk. split; [discriminate | now left].
    + apply Z.eqb_neq in Hk. rewrite <- IH. split; [intros [?|?]|]; auto.
      contradiction.
Qed.

Lemma write_facs_frames_marked (int_of : string -> option Z)
  (aus : list ParseMMI.ActionUnit) (d : ParseMMI.Metadata)
  (pn sn : string) (numbers : list Z) :
  holds d (marked_codes int_of aus) ->
  ParseMMI.write_facs_frames pn sn d (ParseMMI.sd_keys d) numbers
  = (map (fun i =>
            ParseMMI.mkFacsFile pn sn i
              (String.concat "_"
                 (map ParseMMI.py_str (marked_codes int_of aus i))))
         (filter (fun i => has_any (marked_codes int_of aus i)) numbers),
     None).
Proof.
  intros Hd. induction numbers as [|i rest IH]; simpl; [reflexivity|].
  pose proof (py_in_keys d i) as Hkey. rewrite (Hd i) in Hkey.
  destruct (marked_codes int_of aus i) as [|c cs] eqn:Hcodes; simpl in *.
  - destruct (py_in i (ParseMMI.sd_keys d)) eqn:Hin.
    + exfalso. apply (proj1 Hkey eq_refl). reflexivity.
    + simpl. exact IH.
  - assert (Hin : py_in i (ParseMMI.sd_keys d) = true)
      by (apply Hkey; discriminate).
    rewrite Hin. simpl. rewrite (Hd i), Hcodes. simpl.
    rewrite IH. reflexivity.
Qed.

(** X24.  With the dictionary of [parseXML], [save_to_disk_with_facs]
    writes one file for every frame index below the number of frames
    that some marker names, in increasing order and nothing else; the
    file carries the process and stream names, the index, and the codes
    of the frame joined by "_".  The lookup of a relevant frame never
    comes back empty, so the loop is never stopped. *)
Theorem X24_facs_files_are_the_marked_frames
  {F : Type} (int_of : string -> option Z)
  (action_units : list ParseMMI.ActionUnit) (metadata : ParseMMI.Metadata)
  (frameSet : ParseMMI.FrameSet F) :
  ParseMMI.parseXML int_of action_units = Done metadata ->
  ParseMMI.save_to_disk_with_facs frameSet metadata
  = (map (fun i =>
            ParseMMI.mkFacsFile
              (ParseMMI.processName frameSet) (ParseMMI.streamName frameSet) i
              (String.concat "_"
                 (map ParseMMI.py_str (marked_codes int_of action_units i))))
         (filter (fun i => has_any (marked_codes int_of action_units i))
                 (indices (Z.of_nat (length (ParseMMI.frames frameSet))))),
     None).
Proof.
  intros Hrun. unfold ParseMMI.save_to_disk_with_facs.
  apply write_facs_frames_marked.
  apply parseXML_holds. exact Hrun.
Qed.

Lemma X24_five_frames_witness :
  ParseMMI.parseXML example_int example_action_units
    = Done [(3, [Some "12"%string; Some "25"%string]); (7, [Some "12"%string])] /\
  ParseMMI.save_to_disk_with_facs
    (ParseMMI.mkFrameSet GrayFrame
       [example_frame; example_frame; example_frame; example_frame;
        example_frame] "mmi" "gray")
    [(3, [Some "12"%string; Some "25"%string]); (7, [Some "12"%string])]
  = ([ParseMMI.mkFacsFile "mmi" "gray" 3 "12_25"], None).
Proof.
  split; [reflexivity|].
  exact (X24_facs_files_are_the_marked_frames example_int
           example_action_units _
           (ParseMMI.mkFrameSet GrayFrame
              [example_frame; example_frame; example_frame; example_frame;
               example_frame] "mmi" "gray") eq_refl).
Defined.

(** X25.  parse_mmi_xml's [main] never completes and never writes a
    file: whatever the arguments, the files and the metadata, the run
    ends with an exception; with well-formed arguments, existing paths,
    readable metadata and a video that opens, that exception is the
    NameError for [multiply_frames]. *)
Theorem X25_parse_mmi_main_never_completes
  (w : World) (int_of : string -> option Z)
  (findall : string -> Run (list ParseMMI.ActionUnit)) :
  (exists e, ParseMMI.main w int_of findall = Failed e) /\
  (forall a0 a1 a2 more action_units metadata video,
      argv w = a0 :: a1 :: a2 :: more ->
      isfile w (abspath w a1) = true ->
      isdir w (abspath w a2) = true ->
      findall (py_replace (abspath w a1) ".avi" "-oao_aucs.xml")
        = Done action_units ->
      ParseMMI.parseXML int_of action_units = Done metadata ->
      VideoCapture w (abspath w a1) = Some video ->
      ParseMMI.main w int_of findall = Failed (NameError "multiply_frames")).
Proof.
  split.
  - unfold ParseMMI.main.
    destruct (length (argv w) <? 3)%nat.
    + destruct (py_index (argv w) 0) as [argv0|e]; eexists; reflexivity.
    + destruct (py_index (argv w) 1) as [arg1|e];
        [|eexists; reflexivity].
      destruct (py_index (argv w) 2) as [arg2|e];
        [|eexists; reflexivity].
      cbn [of_py run_bind].
      destruct (negb (isfile w (abspath w arg1))); [eexists; reflexivity|].
      destruct (negb (isdir w (abspath w arg2))); [eexists; reflexivity|].
      destruct (findall _) as [action_units|e]; [|eexists; reflexivity].
      cbn [run_bind].
      destruct (ParseMMI.parseXML int_of action_units) as [metadata|e];
        [|eexists; reflexivity].
      cbn [run_bind].
      destruct (read_video w (abspath w arg1)) as [frames|e];
        eexists; reflexivity.
  - intros a0 a1 a2 more action_units metadata video
           Hargv Hfile Hdir Hfind Hparse Hvideo.
    unfold ParseMMI.main. rewrite Hargv. simpl.
    rewrite Hfile, Hdir. simpl. rewrite Hfind. simpl. rewrite Hparse. simpl.
    unfold read_video. rewrite Hvideo. reflexivity.
Qed.

(** The metadata file of a video: every ".avi" in the path is replaced,
    not only the extension. *)
Example metadata_file_names :
  py_replace "/data/S001-001.avi" ".avi" "-oao_aucs.xml"
    = "/data/S001-001-oao_aucs.xml"%string /\
  py_replace "/data.avi/clip.avi" ".avi" "-oao_aucs.xml"
    = "/data-oao_aucs.xml/clip-oao_aucs.xml"%string.
Proof.
  split; reflexivity.
Qed.

(** ** web-server/server.py *)

Lemma prefix_iff (p s : string) :
  String.prefix p s = true <-> exists post, s = (p ++ post)%string.
Proof.
  revert s. induction p as [|c p IH]; intros s; simpl.
  - split; [intros _; exists s; reflexivity | intros _; destruct s; reflexivity].
  - destruct s as [|d s]; simpl.
    + split; [discriminate | intros [post H]; discriminate].
    + destruct (Ascii.ascii_dec c d) as [->|Hne].
      * rewrite IH. split; intros [post H]; exists post.
        -- now rewrite H.
        -- now injection H.
      * split; [discriminate|]. intros [post H]. injection H as H _.
        now elim Hne.
Qed.

Lemma py_contains_iff (sub s : string) :
  Server.py_contains sub s = true
  <-> exists pre post, s = (pre ++ sub ++ post)%string.
Proof.
  induction s as [|c s IH].
  - cbn [Server.py_contains]. rewrite orb_false_r, prefix_iff. split.
    + intros [post H]. exists EmptyString, post. exact H.
    + intros (pre & post & H). destruct pre as [|d pre]; [|discriminate].
      exists post. exact H.
  - cbn [Server.py_contains]. rewrite orb_true_iff, prefix_iff, IH. split.
    + intros [[post H] | (pre & post & H)].
      * exists EmptyString, post. exact H.
      * exists (String c pre), post. simpl. now rewrite H.
    + intros (pre & post & H). destruct pre as [|d pre].
      * left. exists post. exact H.
      * right. simpl in H. injection H as _ H. exists pre, post. exact H.
Qed.

Lemma some_passes_filter {A : Type} (g : A -> bool) (l : list A) :
  (0 <? length (filter g l))%nat = true <-> exists a, In a l /\ g a = true.
Proof.
  rewrite Nat.ltb_lt. split.
  - intros Hlen. destruct (filter g l) as [|a rest] eqn:Hf; [simpl in Hlen; lia|].
    exists a. apply filter_In. rewrite Hf. now left.
  - intros (a & Ha & Hg).
    assert (Hin : In a (filter g l)) by (apply filter_In; auto).
    destruct (filter g l); [destruct Hin | simpl; lia].
Qed.

(** X26.  [isAllowed] accepts a file name exactly when one of the words
    avi, mpg, mpeg, mkv, webm, mp4 occurs somewhere in it, in lower
    case: the word need not be the extension. *)
Theorem X26_isAllowed_is_a_substring_test (filename : string) :
  Server.isAllowed filename = true
  <-> exists word pre post,
        In word Server.ALLOWED_WORDS /\
        filename = (pre ++ word ++ post)%string.
Proof.
  unfold Server.isAllowed. rewrite some_passes_filter. split.
  - intros (word & Hin & Hc). apply py_contains_iff in Hc as (pre & post & H).
    exists word, pre, post. auto.
  - intros (word & pre & post & Hin & H). exists word. split; [exact Hin|].
    apply py_contains_iff. exists pre, post. exact H.
Qed.

Example isAllowed_examples :
  Server.isAllowed "clip.mp4" = true /\
  Server.isAllowed "navigation.txt" = true /\
  Server.isAllowed "CLIP.AVI" = false /\
  Server.isAllowed "notes.pdf" = false.
Proof.
  repeat split.
Qed.
